(** * review-api: the WSGI review server of [server.py]

    A shallow embedding of [ReviewAnalyzerServer.__call__] and of the
    library calls it relies on, followed by the properties of the read
    path (GET) and of the write path (POST).

    Conventions.
    - A Python [str] is a [string]; the development covers ASCII text (the
      allow-list, the date formats and the field names are ASCII).
    - A Python exception is a value of [exception]; code that may raise
      returns a [result].
    - The module-level list [reviews] is the state.  Every element of that
      list is a dict object of its own (the rows built by [to_dict] and the
      dict literal of the POST branch are all freshly allocated, and nothing
      else is ever inserted), so a reference to one of them is its position
      in the list.  A list built by a comprehension holds such references:
      a store through one of them is a store into [reviews].
    - [json.dumps] is not modelled: a response carries the value that is
      serialised, and the [Content-Length] header is left out. *)

From Stdlib Require Import Ascii String.
From stdpp Require Import gmap strings list sorting.

Local Open Scope string_scope.
Local Open Scope list_scope.
Local Open Scope Z_scope.

(** ** Exceptions *)

Inductive exception :=
  | ValueError                  (* raised by [datetime.strptime] *)
  | IndexError                  (* [l[0]] on an empty list *)
  | KeyError (key : string)     (* [d[key]] on a missing key *)
  | InputError (msg : string).  (* raised while the request body is read *)

Inductive result (A : Type) :=
  | Ok (a : A)
  | Raise (e : exception).
Arguments Ok {A} a.
Arguments Raise {A} e.

Global Instance result_ret : MRet result := fun _ a => Ok a.

Global Instance result_bind : MBind result := fun _ _ k m =>
  match m with
  | Ok a => k a
  | Raise e => Raise e
  end.

(** [str(e)]: the text an [except Exception as e] handler reports.  An
    [InputError] stands for whatever [int], [read] or [decode] raised on the
    request body and carries its text.  The text of a [ValueError] of
    [strptime] is not modelled (the line below is a placeholder): [strptime]
    is called in the GET branch only, where nothing catches or prints it. *)
Definition str_exception (e : exception) : string :=
  match e with
  | ValueError => "time data does not match format"
  | IndexError => "list index out of range"
  | KeyError k => "'" +:+ k +:+ "'"
  | InputError msg => msg
  end.

(** ** [datetime]: naive date-times, without the microsecond field (it is 0
    after [strptime] under both formats used here, and [strftime] under
    ['%Y-%m-%d %H:%M:%S'] drops it). *)

Record datetime := mk_datetime {
  year : Z; month : Z; day : Z;
  hour : Z; minute : Z; second : Z
}.

Global Instance datetime_eq_dec : EqDecision datetime.
Proof. solve_decision. Defined.

Definition is_leap (y : Z) : bool :=
  (y mod 4 =? 0) && (negb (y mod 100 =? 0) || (y mod 400 =? 0)).

Definition days_in_month (y m : Z) : Z :=
  match m with
  | 2 => if is_leap y then 29 else 28
  | 4 | 6 | 9 | 11 => 30
  | _ => 31
  end.

(** The range checks of the [datetime] constructor. *)
Definition valid_datetime (d : datetime) : bool :=
  (1 <=? year d) && (year d <=? 9999) &&
  (1 <=? month d) && (month d <=? 12) &&
  (1 <=? day d) && (day d <=? days_in_month (year d) (month d)) &&
  (0 <=? hour d) && (hour d <=? 23) &&
  (0 <=? minute d) && (minute d <=? 59) &&
  (0 <=? second d) && (second d <=? 59).

(** Comparison of two naive date-times: field by field, most significant
    first. *)
Definition lex (c1 c2 : comparison) : comparison :=
  match c1 with Eq => c2 | _ => c1 end.

Definition datetime_cmp (a b : datetime) : comparison :=
  lex (year a ?= year b)
 (lex (month a ?= month b)
 (lex (day a ?= day b)
 (lex (hour a ?= hour b)
 (lex (minute a ?= minute b)
      (second a ?= second b))))).

(** [a >= b] and [a <= b] *)
Definition datetime_ge (a b : datetime) : bool :=
  match datetime_cmp a b with Lt => false | _ => true end.
Definition datetime_le (a b : datetime) : bool :=
  match datetime_cmp a b with Gt => false | _ => true end.

Definition same_day (a b : datetime) : Prop :=
  year a = year b ∧ month a = month b ∧ day a = day b.

Definition midnight (a : datetime) : Prop :=
  hour a = 0 ∧ minute a = 0 ∧ second a = 0.

(** ** [datetime.strptime]

    CPython turns a format into a regular expression, takes the first match
    of it at the start of the text, demands that the match covers the whole
    text and hands the numbers to the [datetime] constructor.  The matcher
    below returns every way to match, in the order a backtracking engine
    tries them, so the head of the list is the match [re.match] finds. *)

Module Regex.

Definition matcher (A : Type) := string → list (A * string).

Definition ret {A} (a : A) : matcher A := fun s => [(a, s)].

Definition bind {A B} (p : matcher A) (k : A → matcher B) : matcher B :=
  fun s => flat_map (fun ar => k (fst ar) (snd ar)) (p s).

(** [p|q] *)
Definition alt {A} (p q : matcher A) : matcher A := fun s => p s ++ q s.

Definition code (c : ascii) : Z := Z.of_N (N_of_ascii c).

(** one character in the class [[lo-hi]] of digits, as a number *)
Definition digit_in (lo hi : Z) : matcher Z := fun s =>
  match s with
  | String c r =>
      if (48 + lo <=? code c) && (code c <=? 48 + hi)
      then [(code c - 48, r)] else []
  | EmptyString => []
  end.

(** [\d] *)
Definition digit : matcher Z := digit_in 0 9.

(** a literal character *)
Definition lit (c : ascii) : matcher unit := fun s =>
  match s with
  | String c' r => if decide (c' = c) then [(tt, r)] else []
  | EmptyString => []
  end.

(** the class [\s] on ASCII: tab, line feed, vertical tab, form feed,
    carriage return, the four separators 28..31 and the space *)
Definition is_space (c : ascii) : bool :=
  ((9 <=? code c) && (code c <=? 13)) ||
  ((28 <=? code c) && (code c <=? 32)).

(** [\s+], greedy: the longest run first, then the shorter ones *)
Fixpoint spaces (s : string) : list (unit * string) :=
  match s with
  | String c r => if is_space c then spaces r ++ [(tt, r)] else []
  | EmptyString => []
  end.

(** two characters [a b] read as the number [10a+b] *)
Definition two (p q : matcher Z) : matcher Z :=
  bind p (fun a => bind q (fun b => ret (10 * a + b))).

(** [%Y]: [\d\d\d\d] *)
Definition pat_Y : matcher Z :=
  bind digit (fun a => bind digit (fun b => bind digit (fun c =>
  bind digit (fun d => ret (1000 * a + 100 * b + 10 * c + d))))).

(** [%m]: [1[0-2]|0[1-9]|[1-9]] *)
Definition pat_m : matcher Z :=
  alt (two (digit_in 1 1) (digit_in 0 2))
 (alt (two (digit_in 0 0) (digit_in 1 9))
      (digit_in 1 9)).

(** [%d]: [3[0-1]|[1-2]\d|0[1-9]|[1-9]| [1-9]] *)
Definition pat_d : matcher Z :=
  alt (two (digit_in 3 3) (digit_in 0 1))
 (alt (two (digit_in 1 2) digit)
 (alt (two (digit_in 0 0) (digit_in 1 9))
 (alt (digit_in 1 9)
      (bind (lit " ") (fun _ => digit_in 1 9))))).

(** [%H]: [2[0-3]|[0-1]\d|\d] *)
Definition pat_H : matcher Z :=
  alt (two (digit_in 2 2) (digit_in 0 3))
 (alt (two (digit_in 0 1) digit)
      digit).

(** [%M]: [[0-5]\d|\d] *)
Definition pat_M : matcher Z :=
  alt (two (digit_in 0 5) digit) digit.

(** [%S]: [6[0-1]|[0-5]\d|\d] *)
Definition pat_S : matcher Z :=
  alt (two (digit_in 6 6) (digit_in 0 1))
 (alt (two (digit_in 0 5) digit)
      digit).

(** the expression of ['%Y-%m-%d'] *)
Definition pat_date : matcher datetime :=
  bind pat_Y (fun y => bind (lit "-") (fun _ =>
  bind pat_m (fun m => bind (lit "-") (fun _ =>
  bind pat_d (fun d => ret (mk_datetime y m d 0 0 0)))))).

(** the expression of ['%Y-%m-%d %H:%M:%S']; the blank of the format
    becomes [\s+] *)
Definition pat_timestamp : matcher datetime :=
  bind pat_Y (fun y => bind (lit "-") (fun _ =>
  bind pat_m (fun m => bind (lit "-") (fun _ =>
  bind pat_d (fun d => bind spaces (fun _ =>
  bind pat_H (fun h => bind (lit ":") (fun _ =>
  bind pat_M (fun mi => bind (lit ":") (fun _ =>
  bind pat_S (fun sec => ret (mk_datetime y m d h mi sec)))))))))))).

(** [first p s a r]: the first way to match [p] on [s] reads [a] and
    leaves [r]. *)
Definition first {A} (p : matcher A) (s : string) (a : A) (r : string)
  : Prop :=
  ∃ tl, p s = (a, r) :: tl.

End Regex.

(** [datetime.strptime(text, format)] for a format given by its matcher:
    no match, text left over after the match, or numbers the constructor
    refuses (year 0, 31 April, second 60) all raise [ValueError]. *)
Definition strptime (pat : Regex.matcher datetime) (text : string)
  : result datetime :=
  match pat text with
  | (d, EmptyString) :: _ => if valid_datetime d then Ok d else Raise ValueError
  | _ => Raise ValueError
  end.

(** [datetime.strptime(text, '%Y-%m-%d')] *)
Definition strptime_date : string → result datetime :=
  strptime Regex.pat_date.

(** [datetime.strptime(text, '%Y-%m-%d %H:%M:%S')] *)
Definition strptime_timestamp : string → result datetime :=
  strptime Regex.pat_timestamp.

(** ** [datetime.strftime] under ['%Y-%m-%d %H:%M:%S']: every field in
    decimal, padded with zeros to its width. *)

Definition digit_char (n : Z) : ascii := ascii_of_N (Z.to_N (48 + n)).

Definition pad2 (n : Z) (rest : string) : string :=
  String (digit_char (n / 10)) (String (digit_char (n mod 10)) rest).

Definition pad4 (n : Z) (rest : string) : string :=
  String (digit_char (n / 1000)) (String (digit_char (n / 100 mod 10))
    (pad2 (n mod 100) rest)).

Definition strftime (d : datetime) : string :=
  pad4 (year d) (String "-" (pad2 (month d) (String "-" (pad2 (day d)
    (String " " (pad2 (hour d) (String ":" (pad2 (minute d)
      (String ":" (pad2 (second d) EmptyString)))))))))).

(** ** [urllib.parse.parse_qs], with its default arguments: blank values
    are dropped, malformed fields are skipped, the separator is [&].

    A [%XX] escape yields the byte [XX]; for bytes above 7F Python then
    decodes UTF-8 (replacing invalid sequences), which is outside the ASCII
    text this development covers. *)

Module Urllib.

(** [s.split(sep)] *)
Fixpoint split (sep : ascii) (s : string) : list string :=
  match s with
  | EmptyString => [EmptyString]
  | String c r =>
      if decide (c = sep) then EmptyString :: split sep r
      else match split sep r with
           | p :: ps => String c p :: ps
           | [] => [String c EmptyString]
           end
  end.

(** [s.split('=', 1)] when it has two parts *)
Fixpoint split_eq (s : string) : option (string * string) :=
  match s with
  | EmptyString => None
  | String c r =>
      if decide (c = "="%char) then Some (EmptyString, r)
      else match split_eq r with
           | Some (n, v) => Some (String c n, v)
           | None => None
           end
  end.

(** [s.replace('+', ' ')] *)
Fixpoint plus_to_space (s : string) : string :=
  match s with
  | EmptyString => EmptyString
  | String c r =>
      String (if decide (c = "+"%char) then " "%char else c) (plus_to_space r)
  end.

Definition hex_value (c : ascii) : option N :=
  let n := N_of_ascii c in
  if (48 <=? n)%N && (n <=? 57)%N then Some (n - 48)%N
  else if (65 <=? n)%N && (n <=? 70)%N then Some (n - 55)%N
  else if (97 <=? n)%N && (n <=? 102)%N then Some (n - 87)%N
  else None.

(** [unquote]: every [%] followed by two hexadecimal digits becomes the
    byte they denote; any other [%] stays *)
Fixpoint unquote (s : string) : string :=
  match s with
  | EmptyString => EmptyString
  | String c r =>
      if decide (c = "%"%char) then
        match r with
        | String a (String b r') =>
            match hex_value a, hex_value b with
            | Some x, Some y => String (ascii_of_N (16 * x + y)) (unquote r')
            | _, _ => String c (unquote r)
            end
        | _ => String c (unquote r)
        end
      else String c (unquote r)
  end.

(** one field [name=value] of [parse_qsl]; [None] when it is skipped *)
Definition parse_field (name_value : string) : option (string * string) :=
  match split_eq name_value with
  | Some (n, String c v) =>
      Some (unquote (plus_to_space n), unquote (plus_to_space (String c v)))
  | _ => None
  end.

Definition parse_qsl (qs : string) : list (string * string) :=
  omap parse_field (split "&" qs).

(** the loop of [parse_qs]: one list of values per name, in order *)
Definition add_pair (parsed_result : gmap string (list string))
    (nv : string * string) : gmap string (list string) :=
  match parsed_result !! nv.1 with
  | Some vs => <[nv.1 := vs ++ [nv.2]]> parsed_result
  | None => <[nv.1 := [nv.2]]> parsed_result
  end.

Definition parse_qs (qs : string) : gmap string (list string) :=
  foldl add_pair ∅ (parse_qsl qs).

End Urllib.

(** [d.get(key, [None])[0]] *)
Definition first_value (d : gmap string (list string)) (key : string)
  : result (option string) :=
  match d !! key with
  | None => Ok None
  | Some (v :: _) => Ok (Some v)
  | Some [] => Raise IndexError
  end.

(** The truth value of an optional text: [None] and [''] are false.  The
    result is the text itself when it is true. *)
Definition truthy (o : option string) : option string :=
  match o with
  | Some (String c s) => Some (String c s)
  | _ => None
  end.

(** ** The data of the server *)

(** The dict returned by [polarity_scores].  VADER rounds [compound] to four
    decimals and the other three to three, so each is held as the integer
    number of ten-thousandths; the order of two scores is the order of
    these integers. *)
Record Sentiment := mk_sentiment {
  neg : Z; neu : Z; pos : Z; compound : Z
}.

(** A review dict.  The rows read from the CSV file carry the columns
    [ReviewId], [ReviewBody], [Location] and [Timestamp] as text; a row that
    has been through a GET also carries [sentiment]. *)
Record Review := mk_review {
  ReviewId : option string;
  ReviewBody : string;
  Location : string;
  Timestamp : string;
  sentiment : option Sentiment
}.

Global Instance Sentiment_eq_dec : EqDecision Sentiment.
Proof. solve_decision. Defined.
Global Instance Review_eq_dec : EqDecision Review.
Proof. solve_decision. Defined.
Global Instance Review_inhabited : Inhabited Review :=
  populate (mk_review None "" "" "" None).

Definition ALLOWED_LOCATIONS : list string := [
  "Albuquerque, New Mexico"; "Carlsbad, California"; "Chula Vista, California";
  "Colorado Springs, Colorado"; "Denver, Colorado"; "El Cajon, California";
  "El Paso, Texas"; "Escondido, California"; "Fresno, California";
  "La Mesa, California"; "Las Vegas, Nevada"; "Los Angeles, California";
  "Oceanside, California"; "Phoenix, Arizona"; "Sacramento, California";
  "Salt Lake City, Utah"; "San Diego, California"; "Tucson, Arizona"
].

(** The body that [json.dumps] serialises, before serialisation. *)
Inductive json :=
  | JReviews (l : list Review)
  | JReview (r : Review)
  | JError (msg : string).

(** What a call of the handler does: it calls [start_response] with a status
    and returns a body (the content type is always [application/json]), or
    an exception leaves it, or it returns [None] without having called
    [start_response]. *)
Inductive outcome :=
  | Response (status : string) (body : json)
  | Raised (e : exception)
  | ReturnedNone.

(** The WSGI environment: the method, the query string, and what reading and
    decoding [CONTENT_LENGTH] bytes of [wsgi.input] gives (the text, or the
    exception that [int], [read] or [decode] raised). *)
Record environ := mk_environ {
  REQUEST_METHOD : string;
  QUERY_STRING : string;
  wsgi_input : result string
}.

(** What the process draws from outside during a POST: the value of
    [str(uuid.uuid4())] and of [datetime.now()]. *)
Record ambient := mk_ambient {
  uuid4 : string;
  now : datetime
}.

(** [filtered_reviews]: the list object the name is bound to is either the
    module-level list [reviews] itself or a list built by a comprehension;
    [refs] are the dicts it holds, by position in [reviews]. *)
Record listvar := mk_listvar {
  aliased : bool;
  refs : list nat
}.

(** ** [list.sort(key=..., reverse=True)]

    The keys are computed once, up front; the sort is stable and [reverse]
    keeps it so: elements with equal keys stay in their original order.
    A stable sort by key has one possible result, computed here by insertion
    from the right. *)

Fixpoint insert_desc {A} (x : Z * A) (l : list (Z * A)) : list (Z * A) :=
  match l with
  | [] => [x]
  | y :: l' => if y.1 <=? x.1 then x :: y :: l' else y :: insert_desc x l'
  end.

Definition sort_desc {A} (l : list (Z * A)) : list (Z * A) :=
  foldr insert_desc [] l.

(** [x] may stand before [y] in a list in descending order of key. *)
Definition desc {A} (x y : Z * A) : Prop := y.1 ≤ x.1.

(** A comprehension [[x for x in l if p(x)]] whose test may raise: elements
    are tested in order and the first exception ends the loop. *)
Fixpoint filter_r {A} (p : A → result bool) (l : list A) : result (list A) :=
  match l with
  | [] => Ok []
  | x :: l' =>
      b ← p x;
      l'' ← filter_r p l';
      Ok (if b : bool then x :: l'' else l'')
  end.

(** [[f(x) for x in l]] where [f] may raise. *)
Fixpoint map_r {A B} (f : A → result B) (l : list A) : result (list B) :=
  match l with
  | [] => Ok []
  | x :: l' => y ← f x; l'' ← map_r f l'; Ok (y :: l'')
  end.

(** ** The handler *)

Section ReviewAnalyzerServer.

(** [sia.polarity_scores]: the lexicon-based scorer, a function of the
    text. *)
Variable polarity_scores : string → Sentiment.

Definition analyze_sentiment (review_body : string) : Sentiment :=
  polarity_scores review_body.

(** [review['sentiment'] = self.analyze_sentiment(review['ReviewBody'])] *)
Definition set_sentiment (review : Review) : Review :=
  mk_review (ReviewId review) (ReviewBody review) (Location review)
    (Timestamp review) (Some (analyze_sentiment (ReviewBody review))).

(** Line 62, [filtered_reviews = reviews]: the name is bound to the list
    [reviews] itself, so it holds every stored dict. *)
Definition all_reviews (reviews : list Review) : listvar :=
  mk_listvar true (seq 0 (length reviews)).

(** Line 70: the comprehension on [review['Location'] == location]. *)
Definition location_filter (reviews : list Review) (location : string)
    (filtered : listvar) : listvar :=
  mk_listvar false
    (filter (fun i => Location (reviews !!! i) = location) (refs filtered)).

(** The tests of the comprehensions of lines 75 and 80. *)
Definition not_before (reviews : list Review) (start_date_dt : datetime)
    (i : nat) : result bool :=
  t ← strptime_timestamp (Timestamp (reviews !!! i));
  Ok (datetime_ge t start_date_dt).

Definition not_after (reviews : list Review) (end_date_dt : datetime)
    (i : nat) : result bool :=
  t ← strptime_timestamp (Timestamp (reviews !!! i));
  Ok (datetime_le t end_date_dt).

(** Lines 72 to 75. *)
Definition start_filter (reviews : list Review) (start_date : option string)
    (filtered : listvar) : result listvar :=
  match truthy start_date with
  | Some start_date =>
      start_date_dt ← strptime_date start_date;
      l ← filter_r (not_before reviews start_date_dt) (refs filtered);
      Ok (mk_listvar false l)
  | None => Ok filtered
  end.

(** Lines 77 to 80. *)
Definition end_filter (reviews : list Review) (end_date : option string)
    (filtered : listvar) : result listvar :=
  match truthy end_date with
  | Some end_date =>
      end_date_dt ← strptime_date end_date;
      l ← filter_r (not_after reviews end_date_dt) (refs filtered);
      Ok (mk_listvar false l)
  | None => Ok filtered
  end.

(** Lines 72 to 80: the date filter. *)
Definition date_filter (reviews : list Review)
    (start_date end_date : option string) (filtered : listvar)
  : result listvar :=
  filtered ← start_filter reviews start_date filtered;
  end_filter reviews end_date filtered.

(** Lines 56 to 80.  [None] stands for the early return of line 68. *)
Definition select (reviews : list Review) (query_string : string)
  : result (option listvar) :=
  let query_params := Urllib.parse_qs query_string in
  location ← first_value query_params "location";
  start_date ← first_value query_params "start_date";
  end_date ← first_value query_params "end_date";
  let filtered := all_reviews reviews in
  match truthy location with
  | Some location =>
      if decide (location ∈ ALLOWED_LOCATIONS) then
        filtered ← date_filter reviews start_date end_date
                     (location_filter reviews location filtered);
        Ok (Some filtered)
      else Ok None
  | None =>
      filtered ← date_filter reviews start_date end_date filtered;
      Ok (Some filtered)
  end.

(** Lines 83 and 84: the loop that stores a score in every dict of
    [filtered_reviews]. *)
Definition annotate (reviews : list Review) (filtered : list nat)
  : list Review :=
  foldl (fun reviews i => alter set_sentiment i reviews) reviews filtered.

(** [x['sentiment']['compound']] *)
Definition sort_key (x : Review) : result Z :=
  match sentiment x with
  | Some s => Ok (compound s)
  | None => Raise (KeyError "sentiment")
  end.

(** Line 87: the keys of all elements, then the sort. *)
Definition sort_by_compound (reviews : list Review) (filtered : list nat)
  : result (list nat) :=
  keyed ← map_r (fun i => k ← sort_key (reviews !!! i); Ok (k, i)) filtered;
  Ok (sort_desc keyed).*2.

(** The dicts of [filtered_reviews] once every one of them has its score,
    in the order they have before the sort. *)
Definition scored (reviews : list Review) (filtered : listvar)
  : list Review :=
  (fun i => annotate reviews (refs filtered) !!! i) <$> refs filtered.

(** Lines 83 to 92. *)
Definition rank (reviews : list Review) (filtered : listvar)
  : list Review * outcome :=
  let reviews := annotate reviews (refs filtered) in
  match sort_by_compound reviews (refs filtered) with
  | Ok sorted =>
      let response_body := (fun i => reviews !!! i) <$> sorted in
      (if aliased filtered then response_body else reviews,
       Response "200 OK" (JReviews response_body))
  | Raise e => (reviews, Raised e)
  end.

(** The GET branch, lines 54 to 92. *)
Definition handle_get (reviews : list Review) (env : environ)
  : list Review * outcome :=
  match select reviews (QUERY_STRING env) with
  | Ok (Some filtered) => rank reviews filtered
  | Ok None => (reviews, Response "400 Bad Request" (JError "Invalid location"))
  | Raise e => (reviews, Raised e)
  end.

(** Lines 98 to 130, the body of the [try]. *)
Definition try_post (reviews : list Review) (env : environ) (amb : ambient)
  : result (list Review * outcome) :=
  request_body ← wsgi_input env;
  let review_data := Urllib.parse_qs request_body in
  review_body ← first_value review_data "ReviewBody";
  location ← first_value review_data "Location";
  match truthy review_body, truthy location with
  | Some review_body, Some location =>
      if decide (location ∈ ALLOWED_LOCATIONS) then
        let review_id := uuid4 amb in
        let timestamp := strftime (now amb) in
        let new_review :=
          mk_review (Some review_id) review_body location timestamp None in
        Ok (reviews ++ [new_review], Response "201 Created" (JReview new_review))
      else
        Ok (reviews, Response "400 Bad Request" (JError "Invalid location"))
  | _, _ =>
      Ok (reviews, Response "400 Bad Request"
                     (JError "ReviewBody and Location are required fields"))
  end.

(** The POST branch, lines 95 to 134: every exception of the [try] body
    is raised before the append and is turned into a 500. *)
Definition handle_post (reviews : list Review) (env : environ) (amb : ambient)
  : list Review * outcome :=
  match try_post reviews env amb with
  | Ok r => r
  | Raise e =>
      (reviews, Response "500 Internal Server Error" (JError (str_exception e)))
  end.

(** [ReviewAnalyzerServer.__call__] *)
Definition call (reviews : list Review) (env : environ) (amb : ambient)
  : list Review * outcome :=
  if decide (REQUEST_METHOD env = "GET") then handle_get reviews env
  else if decide (REQUEST_METHOD env = "POST") then handle_post reviews env amb
  else (reviews, ReturnedNone).

(** A run of the server: the requests are served one after the other. *)
Fixpoint serve (reviews : list Review) (requests : list (environ * ambient))
  : list Review * list outcome :=
  match requests with
  | [] => (reviews, [])
  | (env, amb) :: requests =>
      let '(reviews, out) := call reviews env amb in
      let '(reviews, outs) := serve reviews requests in
      (reviews, out :: outs)
  end.

End ReviewAnalyzerServer.

(** ** Vocabulary of the statements *)

(** The date-time a record's [Timestamp] denotes. *)
Definition timestamp_of (reviews : list Review) (i : nat) : result datetime :=
  strptime_timestamp (Timestamp (reviews !!! i)).

(** A bound of the query: absent ([None] or ['']), or the date-time its
    text denotes. *)
Definition bound (date : option string) : result (option datetime) :=
  match truthy date with
  | Some s => d ← strptime_date s; Ok (Some d)
  | None => Ok None
  end.

(** The first value a query string (or a form body) gives to a name. *)
Definition param (qs : string) (key : string) : option string :=
  match Urllib.parse_qs qs !! key with
  | Some (v :: _) => Some v
  | _ => None
  end.

(** [r'] is [r], or [r] with a score written in its [sentiment]. *)
Definition same_but_sentiment (sia : string → Sentiment) (r r' : Review)
  : Prop :=
  r' = r ∨
  r' = mk_review (ReviewId r) (ReviewBody r) (Location r) (Timestamp r)
         (Some (sia (ReviewBody r))).

(** The compound score a record carries, if it carries a sentiment. *)
Definition compound_of (r : Review) : option Z := compound <$> sentiment r.

(** The identifiers and the scores a response lists. *)
Definition response_reviews (out : outcome) : list Review :=
  match out with
  | Response _ (JReviews l) => l
  | Response _ (JReview r) => [r]
  | _ => []
  end.

Definition response_ids (out : outcome) : list (option string) :=
  ReviewId <$> response_reviews out.

(** The record a 201 response carries. *)
Definition accepted (out : outcome) : option Review :=
  match out with
  | Response status (JReview r) =>
      if decide (status = "201 Created") then Some r else None
  | _ => None
  end.

(** A record without its [sentiment]: what a record is apart from the score
    a read may have left in it. *)
Definition without_sentiment (r : Review) : Review :=
  mk_review (ReviewId r) (ReviewBody r) (Location r) (Timestamp r) None.

(** The test of line 70, when [location] is given. *)
Definition at_location (location : option string) (r : Review) : Prop :=
  match truthy location with
  | Some l => Location r = l
  | None => True
  end.

Global Instance at_location_dec location r : Decision (at_location location r).
Proof. unfold at_location. destruct (truthy location); apply _. Defined.

(** The tests of lines 75 and 80, when the bound is given: a timestamp that
    does not parse passes neither. *)
Definition on_or_after (sd : option datetime) (r : Review) : bool :=
  match sd with
  | Some d =>
      match strptime_timestamp (Timestamp r) with
      | Ok t => datetime_ge t d
      | Raise _ => false
      end
  | None => true
  end.

Definition on_or_before (ed : option datetime) (r : Review) : bool :=
  match ed with
  | Some d =>
      match strptime_timestamp (Timestamp r) with
      | Ok t => datetime_le t d
      | Raise _ => false
      end
  | None => true
  end.

(** The records a query asks for. *)
Definition selected (location : option string) (sd ed : option datetime)
    (r : Review) : Prop :=
  at_location location r ∧ on_or_after sd r ∧ on_or_before ed r.

Global Instance selected_dec location sd ed r :
  Decision (selected location sd ed r).
Proof. unfold selected. apply _. Defined.

(** A test that returned true. *)
Definition holds (b : result bool) : bool :=
  match b with
  | Ok true => true
  | _ => false
  end.

(** The timestamp of the record reads under ['%Y-%m-%d %H:%M:%S']. *)
Definition parses (r : Review) : Prop :=
  ∃ t, strptime_timestamp (Timestamp r) = Ok t.

(** What the write path promises of a record. *)
Definition well_formed (r : Review) : Prop :=
  Location r ∈ ALLOWED_LOCATIONS ∧ parses r.

(** The query gives no location, or one of the allow-list. *)
Definition location_ok (qs : string) : Prop :=
  ∀ l, truthy (param qs "location") = Some l → l ∈ ALLOWED_LOCATIONS.

(** The record a response appends, as a list. *)
Definition appended (out : outcome) : list Review :=
  match accepted out with
  | Some r => [r]
  | None => []
  end.

(** ** Sample data: a scorer with the values VADER gives to three texts (in
    ten-thousandths) and a few records. *)

Module Sample.

Definition scores (text : string) : Sentiment :=
  if decide (text = "Great stay") then mk_sentiment 0 1960 8040 6249
  else if decide (text = "Terrible service") then
    mk_sentiment 7560 2440 0 (-4767)
  else mk_sentiment 0 10000 0 0.

Definition terrible : Review :=
  mk_review (Some "r-1") "Terrible service" "Denver, Colorado"
    "2021-01-05 10:00:00" None.

Definition great : Review :=
  mk_review (Some "r-2") "Great stay" "Denver, Colorado"
    "2021-01-06 00:00:00" None.

Definition plain : Review :=
  mk_review (Some "r-3") "It was a stay" "Tucson, Arizona"
    "2021-01-06 00:00:01" None.

Definition late : Review :=
  mk_review (Some "r-4") "Checked out at noon" "Denver, Colorado"
    "2021-01-06 12:00:00" None.

Definition store : list Review := [terrible; great; plain; late].

Definition with_score (r : Review) : Review := set_sentiment scores r.

Definition get (query_string : string) : environ :=
  mk_environ "GET" query_string (Ok "").

Definition post (request_body : string) : environ :=
  mk_environ "POST" "" (Ok request_body).

Definition clock : ambient :=
  mk_ambient "0b5c8f0e-6f0a-4a55-9d3e-2f1c7a9f1e11"
    (mk_datetime 2024 2 29 13 5 9).

Definition posted : Review :=
  mk_review (Some "0b5c8f0e-6f0a-4a55-9d3e-2f1c7a9f1e11") "Great stay"
    "Denver, Colorado" "2024-02-29 13:05:09" None.

(** a record whose timestamp is not a timestamp *)
Definition undated : Review :=
  mk_review (Some "r-5") "Great stay" "Tucson, Arizona" "last week" None.

Definition messy : list Review := [terrible; undated].

(** a run of mixed requests *)
Definition traffic : list (environ * ambient) :=
  [ (get "", clock);
    (post "ReviewBody=Great stay&Location=Denver, Colorado", clock);
    (mk_environ "DELETE" "" (Ok ""), clock);
    (get "location=Denver%2C+Colorado&end_date=2021-01-06", clock);
    (post "ReviewBody=Great stay&Location=Nowhere, Atlantis", clock) ].

(** three POSTs: one accepted, one with a location outside the allow-list,
    one whose body cannot be decoded *)
Definition posts : list (environ * ambient) :=
  [ (post "ReviewBody=Great stay&Location=Denver, Colorado", clock);
    (post "ReviewBody=Great stay&Location=Nowhere, Atlantis", clock);
    (mk_environ "POST" "" (Raise (InputError "invalid start byte")), clock) ].

End Sample.

(** * Properties *)

(** Case analysis on an integer known to lie between two numerals. *)
Ltac enum n lo hi :=
  let rec go k :=
    first
      [ assert (hi < k) by done; lia
      | destruct (decide (n = k)) as [->|?];
        [ | let k' := eval cbv in (k + 1) in go k' ] ]
  in go lo.

(** Linear arithmetic with quotients and remainders by numerals. *)
Ltac divlia := Z.to_euclidean_division_equations; lia.

(** ** Date-times *)

Lemma valid_datetime_bounds d :
  valid_datetime d = true →
  1 ≤ year d ≤ 9999 ∧ 1 ≤ month d ≤ 12 ∧
  1 ≤ day d ≤ days_in_month (year d) (month d) ∧
  0 ≤ hour d ≤ 23 ∧ 0 ≤ minute d ≤ 59 ∧ 0 ≤ second d ≤ 59.
Proof. unfold valid_datetime. rewrite !andb_true_iff, !Z.leb_le. lia. Qed.

Lemma days_in_month_le y m : days_in_month y m ≤ 31.
Proof.
  unfold days_in_month. repeat case_match; lia.
Qed.

(** On the day of a bound that is a midnight, [<=] holds at midnight only. *)
Lemma datetime_le_same_day t d :
  0 ≤ hour t → 0 ≤ minute t → 0 ≤ second t →
  same_day t d → midnight d →
  datetime_le t d = true ↔ midnight t.
Proof.
  intros Hh Hm Hs (Ey & Em & Ed) (Dh & Dm & Ds).
  unfold datetime_le, datetime_cmp, midnight.
  rewrite Ey, Em, Ed, Dh, Dm, Ds, !Z.compare_refl. simpl.
  destruct (Z.compare_spec (hour t) 0), (Z.compare_spec (minute t) 0),
    (Z.compare_spec (second t) 0); simpl; split; intros; try done; lia.
Qed.

(** ** The matcher of [strptime] *)

Module RegexFacts.
Import Regex.

Lemma first_bind {A B} (p : matcher A) (k : A → matcher B) s a r b r' :
  first p s a r → first (k a) r b r' → first (bind p k) s b r'.
Proof.
  intros [tl Hp] [tl' Hk]. unfold first, bind.
  rewrite Hp. simpl. rewrite Hk. eauto.
Qed.

Lemma first_ret {A} (a : A) s : first (ret a) s a s.
Proof. by exists []. Qed.

Lemma all_bind {A B} (P : B * string → Prop) (p : matcher A)
    (k : A → matcher B) s :
  (∀ a r, Forall P (k a r)) → Forall P (bind p k s).
Proof.
  intros Hk. unfold bind. induction (p s) as [|[a r] l IH]; simpl.
  - constructor.
  - apply Forall_app. split; [apply Hk | apply IH].
Qed.

Lemma all_ret {A} (P : A * string → Prop) a s : P (a, s) → Forall P (ret a s).
Proof. intros. by repeat constructor. Qed.

Lemma first_alt_l {A} (p q : matcher A) s a r :
  first p s a r → first (alt p q) s a r.
Proof. intros [tl Hp]. unfold first, alt. rewrite Hp. simpl. eauto. Qed.

Lemma first_lit c r : first (lit c) (String c r) tt r.
Proof. unfold first, lit. rewrite decide_True by done. eauto. Qed.

Lemma first_digit k r :
  0 ≤ k ≤ 9 → first digit (String (digit_char k) r) k r.
Proof. intros H. enum k 0 9; vm_compute; eauto. Qed.

Lemma first_pat_Y y r : 0 ≤ y ≤ 9999 → first pat_Y (pad4 y r) y r.
Proof.
  intros H. unfold pat_Y, pad4, pad2.
  eapply first_bind; [apply first_digit; divlia|].
  eapply first_bind; [apply first_digit; divlia|].
  eapply first_bind; [apply first_digit; divlia|].
  eapply first_bind; [apply first_digit; divlia|].
  match goal with
  | |- first (ret ?v) _ _ _ => assert (v = y) as ->
  end; [|apply first_ret].
  assert (y / 1000 = y / 100 / 10) as -> by (by rewrite Z.div_div by lia).
  divlia.
Qed.

Lemma first_pat_m m r : 1 ≤ m ≤ 12 → first pat_m (pad2 m r) m r.
Proof. intros H. enum m 1 12; vm_compute; eauto. Qed.

Lemma first_pat_d d r : 1 ≤ d ≤ 31 → first pat_d (pad2 d r) d r.
Proof. intros H. enum d 1 31; vm_compute; eauto. Qed.

Lemma first_pat_H h r : 0 ≤ h ≤ 23 → first pat_H (pad2 h r) h r.
Proof. intros H. enum h 0 23; vm_compute; eauto. Qed.

Lemma first_pat_M m r : 0 ≤ m ≤ 59 → first pat_M (pad2 m r) m r.
Proof. intros H. enum m 0 59; vm_compute; eauto. Qed.

Lemma first_pat_S s r : 0 ≤ s ≤ 59 → first pat_S (pad2 s r) s r.
Proof. intros H. enum s 0 59; vm_compute; eauto. Qed.

(** The blank [strftime] writes is the whole run of [\s+]: an hour
    starts with a digit. *)
Lemma first_spaces h r :
  0 ≤ h ≤ 23 → first spaces (String " " (pad2 h r)) tt (pad2 h r).
Proof. intros H. enum h 0 23; vm_compute; eauto. Qed.

End RegexFacts.

(** [strptime] reads back what [strftime] writes. *)
Lemma strptime_strftime d :
  valid_datetime d = true → strptime_timestamp (strftime d) = Ok d.
Proof.
  intros Hv. pose proof (valid_datetime_bounds d Hv) as (Hy & Hm & Hd & Hh & Hmi & Hs).
  pose proof (days_in_month_le (year d) (month d)).
  assert (Regex.first Regex.pat_timestamp (strftime d) d EmptyString) as [tl Htl].
  { unfold Regex.pat_timestamp, strftime.
    eapply RegexFacts.first_bind; [apply RegexFacts.first_pat_Y; lia|].
    eapply RegexFacts.first_bind; [apply RegexFacts.first_lit|].
    eapply RegexFacts.first_bind; [apply RegexFacts.first_pat_m; lia|].
    eapply RegexFacts.first_bind; [apply RegexFacts.first_lit|].
    eapply RegexFacts.first_bind; [apply RegexFacts.first_pat_d; lia|].
    eapply RegexFacts.first_bind; [apply RegexFacts.first_spaces; lia|].
    eapply RegexFacts.first_bind; [apply RegexFacts.first_pat_H; lia|].
    eapply RegexFacts.first_bind; [apply RegexFacts.first_lit|].
    eapply RegexFacts.first_bind; [apply RegexFacts.first_pat_M; lia|].
    eapply RegexFacts.first_bind; [apply RegexFacts.first_lit|].
    eapply RegexFacts.first_bind; [apply RegexFacts.first_pat_S; lia|].
    destruct d; apply RegexFacts.first_ret. }
  unfold strptime_timestamp, strptime. by rewrite Htl, Hv.
Qed.

(** A date parsed under ['%Y-%m-%d'] is a midnight. *)
Lemma strptime_date_midnight s d : strptime_date s = Ok d → midnight d.
Proof.
  unfold strptime_date, strptime. intros H.
  assert (Forall (fun x => midnight x.1) (Regex.pat_date s)) as Hall.
  { unfold Regex.pat_date.
    repeat (apply RegexFacts.all_bind; intros).
    by apply RegexFacts.all_ret. }
  destruct (Regex.pat_date s) as [|[d' [|]] l]; try done.
  apply Forall_cons in Hall as [Hd _].
  destruct (valid_datetime d'); by simplify_eq.
Qed.

Lemma strptime_valid pat s d : strptime pat s = Ok d → valid_datetime d = true.
Proof.
  unfold strptime. intros H.
  destruct (pat s) as [|[d' [|]] l]; try done.
  destruct (valid_datetime d') eqn:E; by simplify_eq.
Qed.

Lemma strptime_raises pat s e : strptime pat s = Raise e → e = ValueError.
Proof.
  unfold strptime. intros H. repeat case_match; by simplify_eq.
Qed.

(** ** Query strings *)

Lemma add_pair_nonempty (m : gmap string (list string)) nv :
  map_Forall (fun _ vs => vs ≠ []) m →
  map_Forall (fun _ vs => vs ≠ []) (Urllib.add_pair m nv).
Proof.
  intros Hm. unfold Urllib.add_pair.
  destruct (m !! nv.1) as [vs|] eqn:E; apply map_Forall_insert_2; try done.
  by destruct vs.
Qed.

Lemma parse_qs_nonempty qs :
  map_Forall (fun _ vs => vs ≠ []) (Urllib.parse_qs qs).
Proof.
  unfold Urllib.parse_qs.
  assert (map_Forall (fun _ (vs : list string) => vs ≠ [])
            (∅ : gmap string (list string))) as H0 by apply map_Forall_empty.
  revert H0. generalize (∅ : gmap string (list string)).
  induction (Urllib.parse_qsl qs) as [|nv l IH]; intros m Hm; simpl; [done|].
  by apply IH, add_pair_nonempty.
Qed.

(** [get(key, [None])[0]] never raises on what [parse_qs] returns. *)
Lemma first_value_parse_qs qs key :
  ∃ o, first_value (Urllib.parse_qs qs) key = Ok o.
Proof.
  unfold first_value.
  destruct (Urllib.parse_qs qs !! key) as [[|v vs]|] eqn:E; eauto.
  by apply parse_qs_nonempty in E.
Qed.

Lemma first_value_param qs key :
  first_value (Urllib.parse_qs qs) key = Ok (param qs key).
Proof.
  unfold first_value, param.
  destruct (Urllib.parse_qs qs !! key) as [[|v vs]|] eqn:E; try done.
  by apply parse_qs_nonempty in E.
Qed.

Lemma truthy_Some s : s ≠ "" → truthy (Some s) = Some s.
Proof. by destruct s. Qed.

Lemma truthy_inv o s : truthy o = Some s → o = Some s ∧ s ≠ "".
Proof. destruct o as [[|c r]|]; simpl; intros [= <-]; by split. Qed.

(** ** Comprehensions *)

Lemma filter_r_elem {A} (p : A → result bool) l l' x :
  filter_r p l = Ok l' → x ∈ l' ↔ x ∈ l ∧ p x = Ok true.
Proof.
  revert l'. induction l as [|y l IH]; intros l' H; simpl in H.
  - injection H as <-. split; [by intros ?%elem_of_nil|].
    by intros [?%elem_of_nil _].
  - destruct (p y) as [b|] eqn:Ey; simpl in H; [|done].
    destruct (filter_r p l) as [l''|] eqn:El; simpl in H; [|done].
    injection H as <-. specialize (IH _ eq_refl).
    destruct b; rewrite ?(elem_of_cons l''), IH, elem_of_cons.
    + split; [intros [->|[? ?]]; eauto | intros [[->|?] ?]; eauto].
    + split; [intros [? ?]; eauto | intros [[->|?] ?]; [congruence|done]].
Qed.

Lemma filter_r_sublist {A} (p : A → result bool) l l' :
  filter_r p l = Ok l' → sublist l' l.
Proof.
  revert l'. induction l as [|y l IH]; intros l' H; simpl in H.
  - by simplify_eq.
  - destruct (p y) as [b|]; simpl in H; [|done].
    destruct (filter_r p l) as [l''|]; simpl in H; [|done].
    simplify_eq. destruct b; constructor; by apply IH.
Qed.

Lemma filter_r_total {A} (p : A → result bool) l :
  Forall (fun x => ∃ b, p x = Ok b) l → ∃ l', filter_r p l = Ok l'.
Proof.
  induction 1 as [|x l [b Hb] _ [l' IH]]; simpl; [eauto|].
  rewrite Hb, IH. simpl. eauto.
Qed.

Lemma filter_r_raises {A} (p : A → result bool) l e :
  filter_r p l = Raise e → ∃ x, x ∈ l ∧ p x = Raise e.
Proof.
  induction l as [|y l IH]; simpl; [done|].
  destruct (p y) as [b|e'] eqn:Ey; simpl.
  - destruct (filter_r p l) as [l''|e'']; simpl; [done|].
    intros; simplify_eq. destruct IH as (x & ? & ?); [done|].
    exists x. split; [by right | done].
  - intros; simplify_eq. exists y. split; [by left | done].
Qed.

Lemma filter_r_ext {A} (p q : A → result bool) l :
  (∀ x, x ∈ l → p x = q x) → filter_r p l = filter_r q l.
Proof.
  induction l as [|y l IH]; intros H; simpl; [done|].
  rewrite H by left. rewrite IH; [done|]. intros. apply H. by right.
Qed.

Lemma map_r_Ok {A B} (f : A → result B) (g : A → B) l :
  (∀ x, x ∈ l → f x = Ok (g x)) → map_r f l = Ok (g <$> l).
Proof.
  induction l as [|y l IH]; intros H; simpl; [done|].
  rewrite H by left. simpl. rewrite IH; [done|]. intros. apply H. by right.
Qed.

(** ** The sort *)

Section sort.
Context {A : Type}.
Implicit Types (x : Z * A) (l : list (Z * A)).

Lemma insert_desc_perm x l : insert_desc x l ≡ₚ x :: l.
Proof.
  induction l as [|y l IH]; simpl; [done|].
  case_match; [done|]. by rewrite IH, Permutation_swap.
Qed.

Lemma sort_desc_perm l : sort_desc l ≡ₚ l.
Proof.
  induction l as [|x l IH]; simpl; [done|].
  by rewrite insert_desc_perm, IH.
Qed.

Lemma insert_desc_sorted x l :
  StronglySorted desc l → StronglySorted desc (insert_desc x l).
Proof.
  induction 1 as [|y l Hl IH Hy]; simpl.
  - repeat constructor.
  - destruct (Z.leb_spec y.1 x.1).
    + constructor; [by constructor|].
      constructor; [done|].
      eapply Forall_impl; [done|]. unfold desc. simpl. lia.
    + constructor; [done|].
      rewrite insert_desc_perm. constructor; [|done]. unfold desc. lia.
Qed.

Lemma sort_desc_sorted l : StronglySorted desc (sort_desc l).
Proof.
  induction l as [|x l IH]; simpl; [constructor|].
  by apply insert_desc_sorted.
Qed.

(** Stability: the elements of any one key keep their order. *)
Lemma insert_desc_stable k x l :
  filter (fun y => y.1 = k) (insert_desc x l) =
  filter (fun y => y.1 = k) (x :: l).
Proof.
  induction l as [|y l IH]; simpl; [done|].
  destruct (Z.leb_spec y.1 x.1); [done|].
  rewrite filter_cons, IH, !filter_cons.
  repeat case_decide; try done; lia.
Qed.

Lemma sort_desc_stable k l :
  filter (fun y => y.1 = k) (sort_desc l) = filter (fun y => y.1 = k) l.
Proof.
  induction l as [|x l IH]; simpl; [done|].
  by rewrite insert_desc_stable, !filter_cons, IH.
Qed.

(** A list already in descending order is left as it is. *)
Lemma sort_desc_id l : StronglySorted desc l → sort_desc l = l.
Proof.
  induction 1 as [|x l Hl IH Hx]; simpl; [done|].
  rewrite IH. destruct Hx as [|y l Hy _]; simpl; [done|].
  unfold desc in Hy. by destruct (Z.leb_spec y.1 x.1); [|lia].
Qed.

End sort.

Lemma filter_fmap_comm {A B} (f : A → B) (P : B → Prop)
    `{!∀ y, Decision (P y)} (l : list A) :
  filter P (f <$> l) = f <$> filter (fun x => P (f x)) l.
Proof.
  induction l as [|x l IH]; [done|].
  rewrite fmap_cons, !filter_cons, IH. by case_decide.
Qed.

Lemma filter_ext_elem {A} (P Q : A → Prop)
    `{!∀ x, Decision (P x), !∀ x, Decision (Q x)} (l : list A) :
  (∀ x, x ∈ l → P x ↔ Q x) → filter P l = filter Q l.
Proof.
  induction l as [|x l IH]; intros Hext; [done|].
  rewrite !filter_cons, IH by (intros; apply Hext; by right).
  pose proof (Hext x ltac:(by left)). repeat case_decide; tauto.
Qed.

(** ** Exceptions *)

Lemma bind_Ok {A B} (m : result A) (k : A → result B) b :
  m ≫= k = Ok b ↔ ∃ a, m = Ok a ∧ k a = Ok b.
Proof.
  destruct m as [a|e]; simpl.
  - split; [by eauto|]. by intros (a' & [= <-] & ?).
  - split; [done|]. by intros (? & ? & ?).
Qed.

Lemma bind_Raise {A B} (m : result A) (k : A → result B) e :
  m ≫= k = Raise e ↔ m = Raise e ∨ ∃ a, m = Ok a ∧ k a = Raise e.
Proof.
  destruct m as [a|e']; simpl.
  - split; [by eauto|]. by intros [?|(a' & [= <-] & ?)].
  - split; [by intros [= ->]; left|]. by intros [[= ->]|(? & ? & ?)].
Qed.

Lemma bound_midnight date d : bound date = Ok (Some d) → midnight d.
Proof.
  unfold bound. destruct (truthy date) as [s|]; [|done].
  intros (d' & Hd & [= <-])%bind_Ok. by eapply strptime_date_midnight.
Qed.

Lemma timestamp_of_valid reviews i t :
  timestamp_of reviews i = Ok t → valid_datetime t = true.
Proof. apply strptime_valid. Qed.

(** ** The date filter *)

Lemma start_filter_spec reviews start_date filtered sd :
  bound start_date = Ok sd →
  Forall (fun i => ∃ t, timestamp_of reviews i = Ok t) (refs filtered) →
  ∃ kept, start_filter reviews start_date filtered = Ok kept ∧
    sublist (refs kept) (refs filtered) ∧
    ∀ i, i ∈ refs kept ↔
      i ∈ refs filtered ∧ ∃ t, timestamp_of reviews i = Ok t ∧
        ∀ d, sd = Some d → datetime_ge t d = true.
Proof.
  unfold bound, start_filter. intros Hb Hts.
  destruct (truthy start_date) as [s|].
  - apply bind_Ok in Hb as (d & Hd & [= <-]). rewrite Hd. simpl.
    destruct (filter_r_total (not_before reviews d) (refs filtered)) as [l Hl].
    { eapply Forall_impl; [exact Hts|]. intros i [t Ht].
      unfold not_before. fold (timestamp_of reviews i). rewrite Ht. simpl. eauto. }
    rewrite Hl. simpl. eexists; split; [done|]. simpl.
    split; [by eapply filter_r_sublist|].
    intros i. rewrite (filter_r_elem _ _ _ _ Hl).
    unfold not_before. fold (timestamp_of reviews i). split.
    + intros [Hi (t & Ht & [= Hge])%bind_Ok]. split; [done|].
      exists t. split; [done|]. by intros ? [= <-].
    + intros [Hi (t & Ht & Hge)]. split; [done|].
      rewrite Ht. simpl. by rewrite (Hge d).
  - injection Hb as <-. eexists; split; [done|]. split; [done|].
    intros i. split; [|by intros [? _]].
    intros Hi. split; [done|]. rewrite Forall_forall in Hts.
    destruct (Hts i Hi) as [t Ht]. by exists t.
Qed.

Lemma end_filter_spec reviews end_date filtered ed :
  bound end_date = Ok ed →
  Forall (fun i => ∃ t, timestamp_of reviews i = Ok t) (refs filtered) →
  ∃ kept, end_filter reviews end_date filtered = Ok kept ∧
    sublist (refs kept) (refs filtered) ∧
    ∀ i, i ∈ refs kept ↔
      i ∈ refs filtered ∧ ∃ t, timestamp_of reviews i = Ok t ∧
        ∀ d, ed = Some d → datetime_le t d = true.
Proof.
  unfold bound, end_filter. intros Hb Hts.
  destruct (truthy end_date) as [s|].
  - apply bind_Ok in Hb as (d & Hd & [= <-]). rewrite Hd. simpl.
    destruct (filter_r_total (not_after reviews d) (refs filtered)) as [l Hl].
    { eapply Forall_impl; [exact Hts|]. intros i [t Ht].
      unfold not_after. fold (timestamp_of reviews i). rewrite Ht. simpl. eauto. }
    rewrite Hl. simpl. eexists; split; [done|]. simpl.
    split; [by eapply filter_r_sublist|].
    intros i. rewrite (filter_r_elem _ _ _ _ Hl).
    unfold not_after. fold (timestamp_of reviews i). split.
    + intros [Hi (t & Ht & [= Hle])%bind_Ok]. split; [done|].
      exists t. split; [done|]. by intros ? [= <-].
    + intros [Hi (t & Ht & Hle)]. split; [done|].
      rewrite Ht. simpl. by rewrite (Hle d).
  - injection Hb as <-. eexists; split; [done|]. split; [done|].
    intros i. split; [|by intros [? _]].
    intros Hi. split; [done|]. rewrite Forall_forall in Hts.
    destruct (Hts i Hi) as [t Ht]. by exists t.
Qed.

(** C1. With date parameters that parse and stored timestamps that parse,
    the date filter of lines 72 to 80 succeeds and keeps, in their order,
    exactly the records whose timestamp is [>=] the start date at midnight
    (when one is given) and [<=] the end date at midnight (when one is
    given).  Hence a record stamped on the end day that passes the start
    bound is kept if and only if its time is 00:00:00. *)
Theorem date_filter_bounds reviews start_date end_date filtered sd ed :
  bound start_date = Ok sd →
  bound end_date = Ok ed →
  Forall (fun i => ∃ t, timestamp_of reviews i = Ok t) (refs filtered) →
  ∃ kept, date_filter reviews start_date end_date filtered = Ok kept ∧
    sublist (refs kept) (refs filtered) ∧
    (∀ i, i ∈ refs kept ↔
       i ∈ refs filtered ∧ ∃ t, timestamp_of reviews i = Ok t ∧
         (∀ d, sd = Some d → datetime_ge t d = true) ∧
         (∀ d, ed = Some d → datetime_le t d = true)) ∧
    (∀ d, sd = Some d → midnight d) ∧
    (∀ d, ed = Some d → midnight d) ∧
    (∀ i t d, ed = Some d → i ∈ refs filtered →
       timestamp_of reviews i = Ok t → same_day t d →
       (∀ d', sd = Some d' → datetime_ge t d' = true) →
       i ∈ refs kept ↔ midnight t).
Proof.
  intros Hsd Hed Hts. unfold date_filter.
  destruct (start_filter_spec _ _ _ _ Hsd Hts) as (f1 & Hf1 & Hsub1 & Hin1).
  assert (Forall (fun i => ∃ t, timestamp_of reviews i = Ok t) (refs f1)) as Hts1.
  { rewrite Forall_forall in Hts |- *. intros i Hi. apply Hts.
    by apply Hin1 in Hi as [? _]. }
  destruct (end_filter_spec _ _ _ _ Hed Hts1) as (f2 & Hf2 & Hsub2 & Hin2).
  assert (∀ i, i ∈ refs f2 ↔
       i ∈ refs filtered ∧ ∃ t, timestamp_of reviews i = Ok t ∧
         (∀ d, sd = Some d → datetime_ge t d = true) ∧
         (∀ d, ed = Some d → datetime_le t d = true)) as Hin.
  { intros i. rewrite Hin2, Hin1. split.
    - intros [[Hi (t & Ht & Hge)] (t' & Ht' & Hle)].
      split; [done|]. exists t. rewrite Ht in Ht'. injection Ht' as <-. eauto.
    - intros [Hi (t & Ht & Hge & Hle)]. eauto 10. }
  exists f2. rewrite Hf1. simpl. split; [done|].
  split; [by etrans|]. split; [done|].
  split; [intros d ->; by eapply bound_midnight|].
  split; [intros d ->; by eapply bound_midnight|].
  intros i t d -> Hi Ht Hday Hge.
  pose proof (bound_midnight _ _ Hed) as Hmid.
  pose proof (valid_datetime_bounds _ (timestamp_of_valid _ _ _ Ht)) as Hv.
  rewrite <- (datetime_le_same_day t d) by (done || lia).
  rewrite Hin. split.
  - intros [_ (t' & Ht' & _ & Hle)]. rewrite Ht in Ht'. injection Ht' as <-. eauto.
  - intros Hle. split; [done|]. exists t. split; [done|].
    split; [done|]. by intros ? [= <-].
Qed.

(** ** The read path *)

Section read_path.
Context (polarity_scores : string → Sentiment).

Local Abbreviation score := (set_sentiment polarity_scores).
Local Abbreviation scored_at := (annotate polarity_scores).

Implicit Types (reviews : list Review) (filtered : listvar).

(** The key the sort reads for the dict at position [i]. *)
Local Abbreviation key reviews :=
  (fun i : nat => compound (polarity_scores (ReviewBody (reviews !!! i)))).

Lemma set_sentiment_idemp r : score (score r) = score r.
Proof. done. Qed.

Lemma length_annotate reviews l : length (scored_at reviews l) = length reviews.
Proof.
  revert reviews. induction l as [|j l IH]; intros reviews; simpl; [done|].
  by rewrite IH, length_alter.
Qed.

(** The loop writes a score in the dicts of the list and in no other. *)
Lemma annotate_lookup reviews l (i : nat) :
  scored_at reviews l !! i =
  if decide (i ∈ l) then score <$> reviews !! i else reviews !! i.
Proof.
  revert reviews. induction l as [|j l IH]; intros reviews; simpl.
  - done.
  - rewrite IH, list_lookup_alter.
    destruct (decide (j = i)) as [->|Hne].
    + rewrite (decide_True (P := i ∈ i :: l)) by left.
      case_decide; [|done]. by destruct (reviews !! i).
    + destruct (decide (i ∈ l)).
      * by rewrite decide_True by (by right).
      * rewrite decide_False; [done|]. by intros [->|?]%elem_of_cons.
Qed.

Lemma annotate_total reviews l (i : nat) :
  (i < length reviews)%nat →
  scored_at reviews l !!! i =
  if decide (i ∈ l) then score (reviews !!! i) else reviews !!! i.
Proof.
  intros Hi. rewrite !list_lookup_total_alt, annotate_lookup.
  apply lookup_lt_is_Some_2 in Hi as [r Hr]. rewrite Hr.
  by case_decide.
Qed.

(** After the loop the sort finds a key in every dict of the list. *)
Lemma sort_by_compound_annotate reviews l :
  Forall (fun i => (i < length reviews)%nat) l →
  sort_by_compound (scored_at reviews l) l =
  Ok (sort_desc ((fun i => (key reviews i, i)) <$> l)).*2.
Proof.
  intros Hl. unfold sort_by_compound.
  rewrite (map_r_Ok _ (fun i => (key reviews i, i))); [done|].
  intros i Hi. rewrite Forall_forall in Hl.
  rewrite annotate_total by auto. by rewrite decide_True.
Qed.

Lemma rank_200 reviews filtered :
  Forall (fun i => (i < length reviews)%nat) (refs filtered) →
  let order := (sort_desc ((fun i => (key reviews i, i)) <$> refs filtered)).*2 in
  let body := (fun i => scored_at reviews (refs filtered) !!! i) <$> order in
  rank polarity_scores reviews filtered =
  (if aliased filtered then body else scored_at reviews (refs filtered),
   Response "200 OK" (JReviews body)).
Proof.
  intros Hl. unfold rank.
  by rewrite sort_by_compound_annotate.
Qed.

(** *** What [select] returns *)

Lemma start_filter_sublist reviews start_date filtered kept :
  start_filter reviews start_date filtered = Ok kept →
  sublist (refs kept) (refs filtered).
Proof.
  unfold start_filter. destruct (truthy start_date) as [s|].
  - intros (d & _ & (l & Hl & [= <-])%bind_Ok)%bind_Ok.
    by eapply filter_r_sublist.
  - by intros [= <-].
Qed.

Lemma end_filter_sublist reviews end_date filtered kept :
  end_filter reviews end_date filtered = Ok kept →
  sublist (refs kept) (refs filtered).
Proof.
  unfold end_filter. destruct (truthy end_date) as [s|].
  - intros (d & _ & (l & Hl & [= <-])%bind_Ok)%bind_Ok.
    by eapply filter_r_sublist.
  - by intros [= <-].
Qed.

Lemma date_filter_sublist reviews start_date end_date filtered kept :
  date_filter reviews start_date end_date filtered = Ok kept →
  sublist (refs kept) (refs filtered).
Proof.
  unfold date_filter. intros (f1 & H1 & H2)%bind_Ok.
  etrans; [by eapply end_filter_sublist | by eapply start_filter_sublist].
Qed.

(** [select], with the three parameters read. *)
Lemma select_unfold reviews qs :
  select reviews qs =
  match truthy (param qs "location") with
  | Some location =>
      if decide (location ∈ ALLOWED_LOCATIONS) then
        filtered ← date_filter reviews (param qs "start_date")
                     (param qs "end_date")
                     (location_filter reviews location (all_reviews reviews));
        Ok (Some filtered)
      else Ok None
  | None =>
      filtered ← date_filter reviews (param qs "start_date")
                   (param qs "end_date") (all_reviews reviews);
      Ok (Some filtered)
  end.
Proof. unfold select. by rewrite !first_value_param. Qed.

Lemma select_sublist reviews qs filtered :
  select reviews qs = Ok (Some filtered) →
  sublist (refs filtered) (seq 0 (length reviews)).
Proof.
  rewrite select_unfold. destruct (truthy _) as [loc|].
  - case_decide; [|done].
    intros (f & Hf & [= <-])%bind_Ok. apply date_filter_sublist in Hf.
    etrans; [done|]. apply sublist_filter.
  - intros (f & Hf & [= <-])%bind_Ok. by apply date_filter_sublist in Hf.
Qed.

Lemma sublist_seq_lt (l : list nat) n :
  sublist l (seq 0 n) → Forall (fun i => (i < n)%nat) l.
Proof.
  intros Hl. apply Forall_forall. intros i Hi.
  eapply elem_of_sublist in Hi; [|done]. apply elem_of_seq in Hi. lia.
Qed.

Lemma select_valid reviews qs filtered :
  select reviews qs = Ok (Some filtered) →
  Forall (fun i => (i < length reviews)%nat) (refs filtered).
Proof. intros. by eapply sublist_seq_lt, select_sublist. Qed.

(** *** The ranked response *)

Lemma ranked_body reviews l :
  Forall (fun i => (i < length reviews)%nat) l →
  let st1 := scored_at reviews l in
  let sorted := sort_desc ((fun i => (key reviews i, i)) <$> l) in
  let body := (fun i => st1 !!! i) <$> sorted.*2 in
  compound_of <$> body = Some <$> sorted.*1 ∧
  body ≡ₚ (fun i => st1 !!! i) <$> l ∧
  (∀ k, filter (fun r => compound_of r = Some k) body =
        filter (fun r => compound_of r = Some k) ((fun i => st1 !!! i) <$> l)) ∧
  Forall (fun r => sentiment r = Some (polarity_scores (ReviewBody r))) body.
Proof.
  intros Hl st1 sorted body. rewrite Forall_forall in Hl.
  set (keyed := (fun i => (key reviews i, i)) <$> l).
  set (g := fun x : Z * nat => st1 !!! x.2).
  assert (∀ x, x ∈ keyed → g x = score (reviews !!! x.2) ∧
                            x.1 = key reviews x.2) as Hk.
  { intros x (i & -> & Hi)%list_elem_of_fmap. unfold g, st1. simpl.
    rewrite annotate_total by auto. by rewrite decide_True. }
  assert (∀ x, x ∈ sorted → g x = score (reviews !!! x.2) ∧
                             x.1 = key reviews x.2) as Hs.
  { intros x Hx. apply Hk. unfold sorted in Hx. by rewrite sort_desc_perm in Hx. }
  assert (body = g <$> sorted) as Hbody.
  { unfold body. by rewrite <- list_fmap_compose. }
  assert ((fun i => st1 !!! i) <$> l = g <$> keyed) as Hpre.
  { unfold keyed. by rewrite <- list_fmap_compose. }
  rewrite Hpre, Hbody. split; [|split; [|split]].
  - rewrite <- !list_fmap_compose. apply list_fmap_ext.
    intros i x Hx%list_elem_of_lookup_2. destruct (Hs x Hx) as [Hg Hx1].
    simpl. by rewrite Hg, Hx1.
  - unfold sorted. by rewrite sort_desc_perm.
  - intros k. rewrite !filter_fmap_comm.
    rewrite (filter_ext_elem _ (fun x => x.1 = k) sorted).
    2:{ intros x Hx. destruct (Hs x Hx) as [Hg Hx1]. rewrite Hg, Hx1.
        unfold compound_of. simpl. split; [by intros [= <-] | by intros <-]. }
    rewrite (filter_ext_elem _ (fun x => x.1 = k) keyed).
    2:{ intros x Hx. destruct (Hk x Hx) as [Hg Hx1]. rewrite Hg, Hx1.
        unfold compound_of. simpl. split; [by intros [= <-] | by intros <-]. }
    unfold sorted. by rewrite sort_desc_stable.
  - apply Forall_fmap, Forall_forall. intros x Hx.
    destruct (Hs x Hx) as [Hg _]. simpl. by rewrite Hg.
Qed.

Lemma call_get reviews env amb :
  REQUEST_METHOD env = "GET" →
  call polarity_scores reviews env amb = handle_get polarity_scores reviews env.
Proof. intros H. unfold call. by rewrite decide_True. Qed.

(** C2. The body of a 200 response to a GET lists the records that passed
    the filters in non-increasing order of compound score, and the sort is
    stable: for every score, the records with that score come in the order
    they had in the filtered collection before the sort. *)
Theorem get_sorted_stable reviews env amb reviews' body :
  REQUEST_METHOD env = "GET" →
  call polarity_scores reviews env amb =
    (reviews', Response "200 OK" (JReviews body)) →
  ∃ filtered ks,
    select reviews (QUERY_STRING env) = Ok (Some filtered) ∧
    compound_of <$> body = Some <$> ks ∧
    StronglySorted Z.ge ks ∧
    body ≡ₚ scored polarity_scores reviews filtered ∧
    ∀ k, filter (fun r => compound_of r = Some k) body =
         filter (fun r => compound_of r = Some k)
           (scored polarity_scores reviews filtered).
Proof.
  intros Hget. rewrite call_get by done. unfold handle_get.
  destruct (select reviews (QUERY_STRING env)) as [[filtered|]|e] eqn:Hsel;
    [|done..].
  pose proof (select_valid _ _ _ Hsel) as Hvalid.
  rewrite rank_200 by done. intros [= _ <-].
  destruct (ranked_body reviews (refs filtered) Hvalid) as (Hks & Hperm & Hst & _).
  eexists filtered, _. split; [done|]. split; [exact Hks|].
  split; [|by split].
  eapply (StronglySorted_fmap fst desc); [|apply sort_desc_sorted].
  unfold desc. intros x y. lia.
Qed.

(** C5. A GET whose [location] is given, not empty and outside the
    allow-list is answered 400 with the error "Invalid location", whatever
    the other parameters are, and leaves the collection as it was: nothing
    is filtered, scored or sorted. *)
Theorem get_invalid_location reviews env amb location :
  REQUEST_METHOD env = "GET" →
  param (QUERY_STRING env) "location" = Some location →
  location ≠ "" →
  location ∉ ALLOWED_LOCATIONS →
  call polarity_scores reviews env amb =
    (reviews, Response "400 Bad Request" (JError "Invalid location")).
Proof.
  intros Hget Hloc Hne Hnot. rewrite call_get by done.
  unfold handle_get. rewrite select_unfold, Hloc, truthy_Some by done.
  by rewrite decide_False.
Qed.

(** *** Exceptions of the read path *)

Lemma bound_raises date e : bound date = Raise e → e = ValueError.
Proof.
  unfold bound. destruct (truthy date) as [s|]; [|done].
  intros [H|(d & _ & ?)]%bind_Raise; [|done]. by eapply strptime_raises.
Qed.

Lemma test_raises reviews (test : list Review → datetime → nat → result bool)
    d l e :
  (∀ i, test reviews d i = Raise e →
        strptime_timestamp (Timestamp (reviews !!! i)) = Raise e) →
  Forall (fun i => (i < length reviews)%nat) l →
  filter_r (test reviews d) l = Raise e →
  e = ValueError ∧
  ∃ r, r ∈ reviews ∧ strptime_timestamp (Timestamp r) = Raise ValueError.
Proof.
  intros Htest Hl (i & Hi & Hr)%filter_r_raises. rewrite Forall_forall in Hl.
  apply Htest in Hr. pose proof (strptime_raises _ _ _ Hr) as ->.
  split; [done|]. exists (reviews !!! i).
  split; [|done]. apply list_elem_of_lookup_total_2. auto.
Qed.

Lemma start_filter_raises reviews start_date filtered e :
  Forall (fun i => (i < length reviews)%nat) (refs filtered) →
  start_filter reviews start_date filtered = Raise e →
  e = ValueError ∧
  (bound start_date = Raise ValueError ∨
   ∃ r, r ∈ reviews ∧ strptime_timestamp (Timestamp r) = Raise ValueError).
Proof.
  intros Hl. unfold start_filter, bound.
  destruct (truthy start_date) as [s|]; [|done].
  intros [H|(d & Hd & H)]%bind_Raise.
  - pose proof (strptime_raises _ _ _ H) as ->. rewrite H. auto.
  - apply bind_Raise in H as [H|(? & _ & ?)]; [|done].
    eapply test_raises in H as [-> ?]; [by auto|..|done].
    unfold not_before. by intros i [?|(? & _ & ?)]%bind_Raise.
Qed.

Lemma end_filter_raises reviews end_date filtered e :
  Forall (fun i => (i < length reviews)%nat) (refs filtered) →
  end_filter reviews end_date filtered = Raise e →
  e = ValueError ∧
  (bound end_date = Raise ValueError ∨
   ∃ r, r ∈ reviews ∧ strptime_timestamp (Timestamp r) = Raise ValueError).
Proof.
  intros Hl. unfold end_filter, bound.
  destruct (truthy end_date) as [s|]; [|done].
  intros [H|(d & Hd & H)]%bind_Raise.
  - pose proof (strptime_raises _ _ _ H) as ->. rewrite H. auto.
  - apply bind_Raise in H as [H|(? & _ & ?)]; [|done].
    eapply test_raises in H as [-> ?]; [by auto|..|done].
    unfold not_after. by intros i [?|(? & _ & ?)]%bind_Raise.
Qed.

Lemma date_filter_raises reviews start_date end_date filtered e :
  Forall (fun i => (i < length reviews)%nat) (refs filtered) →
  date_filter reviews start_date end_date filtered = Raise e →
  e = ValueError ∧
  (bound start_date = Raise ValueError ∨
   bound end_date = Raise ValueError ∨
   ∃ r, r ∈ reviews ∧ strptime_timestamp (Timestamp r) = Raise ValueError).
Proof.
  intros Hl. unfold date_filter. intros [H|(f1 & H1 & H)]%bind_Raise.
  - apply start_filter_raises in H as [-> [?|?]]; auto.
  - apply end_filter_raises in H as [-> [?|?]]; auto.
    apply start_filter_sublist in H1. rewrite Forall_forall in Hl |- *.
    intros i Hi. apply Hl. by eapply elem_of_sublist.
Qed.

Lemma all_reviews_valid reviews :
  Forall (fun i => (i < length reviews)%nat) (refs (all_reviews reviews)).
Proof. apply sublist_seq_lt. done. Qed.

Lemma location_filter_valid reviews location :
  Forall (fun i => (i < length reviews)%nat)
    (refs (location_filter reviews location (all_reviews reviews))).
Proof. apply sublist_seq_lt. apply sublist_filter. Qed.

Lemma select_raises reviews qs e :
  select reviews qs = Raise e →
  e = ValueError ∧
  (bound (param qs "start_date") = Raise ValueError ∨
   bound (param qs "end_date") = Raise ValueError ∨
   ∃ r, r ∈ reviews ∧ strptime_timestamp (Timestamp r) = Raise ValueError).
Proof.
  rewrite select_unfold. destruct (truthy _) as [loc|].
  - case_decide; [|done]. intros [Hr|(? & _ & ?)]%bind_Raise; [|done].
    eapply date_filter_raises; [|done]. apply location_filter_valid.
  - intros [Hr|(? & _ & ?)]%bind_Raise; [|done].
    eapply date_filter_raises; [|done]. apply all_reviews_valid.
Qed.

(** C8, as the code has it.  A GET ends in one of three ways: 200 with an
    array of records each carrying its computed sentiment; 400 with the
    error "Invalid location", the collection untouched; or a [ValueError]
    that no handler catches, the collection untouched, and then
    [start_date], [end_date] or the timestamp of a stored record does not
    parse. *)
Theorem get_outcomes reviews env amb :
  REQUEST_METHOD env = "GET" →
  let reviews' := (call polarity_scores reviews env amb).1 in
  let out := (call polarity_scores reviews env amb).2 in
  (∃ body, out = Response "200 OK" (JReviews body) ∧
     Forall (fun r => sentiment r = Some (polarity_scores (ReviewBody r))) body) ∨
  (out = Response "400 Bad Request" (JError "Invalid location") ∧
     reviews' = reviews) ∨
  (out = Raised ValueError ∧ reviews' = reviews ∧
     (bound (param (QUERY_STRING env) "start_date") = Raise ValueError ∨
      bound (param (QUERY_STRING env) "end_date") = Raise ValueError ∨
      ∃ r, r ∈ reviews ∧ strptime_timestamp (Timestamp r) = Raise ValueError)).
Proof.
  intros Hget. rewrite call_get by done. unfold handle_get.
  destruct (select reviews (QUERY_STRING env)) as [[filtered|]|e] eqn:Hsel.
  - pose proof (select_valid _ _ _ Hsel) as Hvalid.
    rewrite rank_200 by done. simpl. left. eexists. split; [done|].
    by destruct (ranked_body reviews (refs filtered) Hvalid) as (_ & _ & _ & ?).
  - simpl. right. by left.
  - simpl. right. right. by apply select_raises in Hsel as [-> ?].
Qed.

(** *** What a GET does to the collection *)

Lemma order_perm (k : nat → Z) (l : list nat) :
  (sort_desc ((fun i => (k i, i)) <$> l)).*2 ≡ₚ l.
Proof.
  rewrite sort_desc_perm, <- list_fmap_compose.
  induction l as [|i l IH]; [done|]. simpl. by rewrite IH.
Qed.

Lemma fmap_lookup_total_seq (l : list Review) :
  (fun i => l !!! i) <$> seq 0 (length l) = l.
Proof.
  apply list_eq. intros i. rewrite list_lookup_fmap.
  destruct (decide (i < length l)%nat) as [Hi|Hi].
  - rewrite lookup_seq_lt by done. simpl.
    by rewrite list_lookup_lookup_total_lt.
  - rewrite lookup_seq_ge, lookup_ge_None_2 by lia. done.
Qed.

Lemma fmap_seq_lookup {B} (f : Review → B) (l : list Review) :
  (fun i : nat => f (l !!! i)) <$> seq 0 (length l) = f <$> l.
Proof.
  rewrite <- (fmap_lookup_total_seq l) at 2. by rewrite <- list_fmap_compose.
Qed.

Lemma annotate_same reviews l :
  Forall2 (same_but_sentiment polarity_scores) reviews (scored_at reviews l).
Proof.
  apply Forall2_same_length_lookup. split; [by rewrite length_annotate|].
  intros i r r' Hr. rewrite annotate_lookup, Hr.
  case_decide; intros [= <-]; [by right | by left].
Qed.

Lemma start_filter_aliased reviews start_date filtered kept :
  start_filter reviews start_date filtered = Ok kept → aliased kept = true →
  truthy start_date = None ∧ kept = filtered.
Proof.
  unfold start_filter. destruct (truthy start_date) as [s|].
  - by intros (d & _ & (l & Hl & [= <-])%bind_Ok)%bind_Ok.
  - by intros [= <-].
Qed.

Lemma end_filter_aliased reviews end_date filtered kept :
  end_filter reviews end_date filtered = Ok kept → aliased kept = true →
  truthy end_date = None ∧ kept = filtered.
Proof.
  unfold end_filter. destruct (truthy end_date) as [s|].
  - by intros (d & _ & (l & Hl & [= <-])%bind_Ok)%bind_Ok.
  - by intros [= <-].
Qed.

(** [filtered_reviews] is still the list [reviews] itself only when no
    parameter was given. *)
Lemma select_aliased reviews qs filtered :
  select reviews qs = Ok (Some filtered) → aliased filtered = true →
  truthy (param qs "location") = None ∧
  truthy (param qs "start_date") = None ∧
  truthy (param qs "end_date") = None ∧
  filtered = all_reviews reviews.
Proof.
  rewrite select_unfold. unfold date_filter.
  destruct (truthy (param qs "location")) as [loc|].
  - case_decide; [|done].
    intros (f & (f1 & H1 & H2)%bind_Ok & [= <-])%bind_Ok Hal.
    destruct (end_filter_aliased _ _ _ _ H2 Hal) as [_ ->].
    by destruct (start_filter_aliased _ _ _ _ H1 Hal) as [_ ->].
  - intros (f & (f1 & H1 & H2)%bind_Ok & [= <-])%bind_Ok Hal.
    destruct (end_filter_aliased _ _ _ _ H2 Hal) as [? ->].
    by destruct (start_filter_aliased _ _ _ _ H1 Hal) as [? ->].
Qed.

(** C7, as the code has it.  A GET adds no record, removes none and changes
    no [ReviewId], [ReviewBody], [Location] or [Timestamp]: the collection
    after it holds the records it held before, each one either untouched or
    with its [sentiment] overwritten by the score of its text.  Every record
    of the response is a record of the collection after the GET, with its
    score stored in it.  When the query gives a [location], a [start_date]
    or an [end_date], the records also keep their positions. *)
Theorem get_store_effect reviews env amb :
  REQUEST_METHOD env = "GET" →
  let reviews' := (call polarity_scores reviews env amb).1 in
  let out := (call polarity_scores reviews env amb).2 in
  (∃ l, l ≡ₚ reviews' ∧
     Forall2 (same_but_sentiment polarity_scores) reviews l) ∧
  Forall (fun r => r ∈ reviews' ∧
            sentiment r = Some (polarity_scores (ReviewBody r)))
    (response_reviews out) ∧
  ((∃ s, s ≠ "" ∧
      (param (QUERY_STRING env) "location" = Some s ∨
       param (QUERY_STRING env) "start_date" = Some s ∨
       param (QUERY_STRING env) "end_date" = Some s)) →
   Forall2 (same_but_sentiment polarity_scores) reviews reviews').
Proof.
  intros Hget. rewrite call_get by done. unfold handle_get.
  assert (Forall2 (same_but_sentiment polarity_scores) reviews reviews) as Hrefl.
  { apply Forall2_same_length_lookup. split; [done|].
    intros i r r' Hr. rewrite Hr. intros [= <-]. by left. }
  destruct (select reviews (QUERY_STRING env)) as [[filtered|]|e] eqn:Hsel;
    simpl; [|by eauto using Forall_nil..].
  pose proof (select_valid _ _ _ Hsel) as Hvalid.
  rewrite rank_200 by done.
  destruct (ranked_body reviews (refs filtered) Hvalid) as (_ & Hperm & _ & Hsent).
  destruct (aliased filtered) eqn:Hal; simpl.
  - destruct (select_aliased _ _ _ Hsel Hal) as (Hl & Hs & He & ->).
    simpl in *. split; [|split].
    + exists (scored_at reviews (seq 0 (length reviews))).
      split; [|apply annotate_same].
      rewrite Hperm. by rewrite <- (length_annotate reviews) at 2;
        rewrite fmap_lookup_total_seq.
    + rewrite Forall_forall in Hsent |- *. auto.
    + intros (s & Hne & [Hp|[Hp|Hp]]); rewrite Hp, truthy_Some in *; done.
  - split; [|split].
    + exists (scored_at reviews (refs filtered)). split; [done|apply annotate_same].
    + rewrite Forall_forall in Hsent |- *. intros r Hr. split; [|auto].
      apply list_elem_of_fmap in Hr as (i & -> & Hi).
      apply list_elem_of_lookup_total_2. rewrite length_annotate.
      rewrite order_perm in Hi. rewrite Forall_forall in Hvalid. auto.
    + intros _. apply annotate_same.
Qed.

(** *** A second GET *)

(** [select] reads the collection through its length and through the
    [Location] and [Timestamp] of its records only. *)
Lemma select_ext reviews reviews' qs :
  length reviews' = length reviews →
  (∀ i : nat, Location (reviews' !!! i) = Location (reviews !!! i) ∧
              Timestamp (reviews' !!! i) = Timestamp (reviews !!! i)) →
  select reviews' qs = select reviews qs.
Proof.
  intros Hlen Hsame.
  assert (∀ d l, filter_r (not_before reviews' d) l =
                 filter_r (not_before reviews d) l) as Hnb.
  { intros. apply filter_r_ext. intros i _. unfold not_before.
    by rewrite (proj2 (Hsame i)). }
  assert (∀ d l, filter_r (not_after reviews' d) l =
                 filter_r (not_after reviews d) l) as Hna.
  { intros. apply filter_r_ext. intros i _. unfold not_after.
    by rewrite (proj2 (Hsame i)). }
  assert (∀ loc f, location_filter reviews' loc f =
                   location_filter reviews loc f) as Hloc.
  { intros. unfold location_filter. f_equal. apply list_filter_iff.
    intros i. by rewrite (proj1 (Hsame i)). }
  assert (∀ sd ed f, date_filter reviews' sd ed f =
                     date_filter reviews sd ed f) as Hdate.
  { intros sd ed f. unfold date_filter.
    assert (start_filter reviews' sd f = start_filter reviews sd f) as ->.
    { unfold start_filter. destruct (truthy sd) as [s|]; [|done].
      destruct (strptime_date s); simpl; [|done]. by rewrite Hnb. }
    destruct (start_filter reviews sd f) as [f1|]; simpl; [|done].
    unfold end_filter. destruct (truthy ed) as [s|]; [|done].
    destruct (strptime_date s); simpl; [|done]. by rewrite Hna. }
  rewrite !select_unfold. unfold all_reviews. rewrite Hlen.
  destruct (truthy _); [|by rewrite Hdate].
  case_decide; [|done]. by rewrite Hloc, Hdate.
Qed.

Lemma select_none reviews qs :
  truthy (param qs "location") = None →
  truthy (param qs "start_date") = None →
  truthy (param qs "end_date") = None →
  select reviews qs = Ok (Some (all_reviews reviews)).
Proof.
  intros Hl Hs He. rewrite select_unfold, Hl.
  unfold date_filter, start_filter, end_filter. by rewrite Hs, He.
Qed.

Lemma annotate_annotate reviews l :
  scored_at (scored_at reviews l) l = scored_at reviews l.
Proof.
  apply list_eq. intros i. rewrite !annotate_lookup.
  case_decide; [|done]. by destruct (reviews !! i).
Qed.

Lemma annotate_all reviews :
  scored_at reviews (seq 0 (length reviews)) = score <$> reviews.
Proof.
  apply list_eq. intros i. rewrite annotate_lookup, list_lookup_fmap.
  case_decide as Hi; [done|].
  rewrite lookup_ge_None_2; [done|]. rewrite elem_of_seq in Hi. lia.
Qed.

Lemma score_fixed r :
  sentiment r = Some (polarity_scores (ReviewBody r)) → score r = r.
Proof. destruct r. simpl. by intros ->. Qed.

Lemma fmap_score_fixed l :
  Forall (fun r => sentiment r = Some (polarity_scores (ReviewBody r))) l →
  score <$> l = l.
Proof.
  induction 1 as [|r l Hr _ IH]; [done|].
  by rewrite fmap_cons, IH, score_fixed.
Qed.

Lemma sorted_by_key {A} (l : list (Z * A)) :
  StronglySorted Z.ge l.*1 → StronglySorted desc l.
Proof.
  induction l as [|x l IH]; [constructor|].
  rewrite fmap_cons. intros [Hx Hl]%StronglySorted_cons.
  constructor; [by apply IH|].
  rewrite Forall_fmap in Hx. eapply Forall_impl; [done|].
  unfold desc. simpl. lia.
Qed.

Lemma sort_desc_keys_sorted {A} (l : list (Z * A)) :
  StronglySorted Z.ge (sort_desc l).*1.
Proof.
  eapply (StronglySorted_fmap fst desc); [|apply sort_desc_sorted].
  unfold desc. intros x y. lia.
Qed.

(** After a GET, the same GET returns the same response and leaves the
    collection as the first one left it. *)
Lemma handle_get_twice reviews env :
  handle_get polarity_scores
    (handle_get polarity_scores reviews env).1 env =
  handle_get polarity_scores reviews env.
Proof.
  unfold handle_get at 2 3.
  destruct (select reviews (QUERY_STRING env)) as [[filtered|]|e] eqn:Hsel;
    simpl; [|unfold handle_get; by rewrite Hsel..].
  pose proof (select_valid _ _ _ Hsel) as Hvalid.
  rewrite rank_200 by done.
  destruct (ranked_body reviews (refs filtered) Hvalid) as (Hks & Hperm & _ & Hsent).
  destruct (aliased filtered) eqn:Hal; cbn [fst snd].
  - destruct (select_aliased _ _ _ Hsel Hal) as (Hl & Hs & He & ->).
    unfold all_reviews in *. cbn [refs aliased] in *.
    match goal with
    | |- handle_get _ ?b _ = _ => set (body := b) in *
    end.
    assert (length body = length reviews) as Hlen.
    { rewrite Hperm. by rewrite length_fmap, length_seq. }
    unfold handle_get. rewrite (select_none body) by done.
    rewrite rank_200 by apply all_reviews_valid. simpl.
    rewrite annotate_all, (fmap_score_fixed body) by done.
    assert (sort_desc ((fun i => (key body i, i)) <$> seq 0 (length body)) =
            (fun i => (key body i, i)) <$> seq 0 (length body)) as ->.
    { apply sort_desc_id, sorted_by_key. rewrite <- list_fmap_compose.
      match type of Hks with
      | _ = Some <$> ?ks =>
          match goal with
          | |- StronglySorted _ ?l => assert (l = ks) as ->
          end
      end; [|apply sort_desc_keys_sorted].
      apply (inj (fmap Some)). rewrite <- Hks.
      rewrite <- (fmap_seq_lookup compound_of body), <- list_fmap_compose.
      apply list_fmap_ext. intros j i [-> Hj]%lookup_seq. simpl.
      rewrite Forall_forall in Hsent. unfold compound_of.
      by rewrite (Hsent (body !!! j)) by by apply list_elem_of_lookup_total_2. }
    rewrite <- !list_fmap_compose.
    match goal with
    | |- context [?f <$> seq 0 (length body)] =>
        assert (f <$> seq 0 (length body) = body) as ->; [|done]
    end.
    etrans; [|apply (fmap_lookup_total_seq body)]. by apply list_fmap_ext.
  - set (st1 := scored_at reviews (refs filtered)).
    assert (select st1 (QUERY_STRING env) = Ok (Some filtered)) as Hsel1.
    { rewrite <- Hsel. apply select_ext; [apply length_annotate|].
      intros i. unfold st1. rewrite !list_lookup_total_alt, annotate_lookup.
      case_decide; [|done]. by destruct (reviews !! i). }
    unfold handle_get. rewrite Hsel1.
    rewrite rank_200 by (by unfold st1; rewrite length_annotate).
    rewrite Hal.
    match goal with
    | |- context [sort_desc (?f <$> refs filtered)] =>
        assert (f <$> refs filtered =
                (fun i => (key reviews i, i)) <$> refs filtered) as ->
    end.
    { apply list_fmap_ext. intros j i Hi%list_elem_of_lookup_2.
      rewrite Forall_forall in Hvalid. unfold st1.
      rewrite annotate_total by auto. by rewrite decide_True. }
    unfold st1. by rewrite annotate_annotate.
Qed.

Lemma get_response_scored reviews env :
  Forall (fun r => sentiment r = Some (polarity_scores (ReviewBody r)))
    (response_reviews (handle_get polarity_scores reviews env).2).
Proof.
  unfold handle_get.
  destruct (select reviews (QUERY_STRING env)) as [[filtered|]|e] eqn:Hsel;
    simpl; [|done..].
  pose proof (select_valid _ _ _ Hsel) as Hvalid.
  rewrite rank_200 by done.
  by destruct (ranked_body reviews (refs filtered) Hvalid) as (_ & _ & _ & ?).
Qed.

(** C9. The same GET run twice in a row, with no POST in between, gives the
    same response both times: in particular the same review identifiers
    and, for records with the same text, the same sentiment.  The second
    run also leaves the collection as the first one left it. *)
Theorem get_idempotent reviews env amb amb' :
  REQUEST_METHOD env = "GET" →
  let once := call polarity_scores reviews env amb in
  let twice := call polarity_scores once.1 env amb' in
  twice.2 = once.2 ∧
  response_ids twice.2 = response_ids once.2 ∧
  (∀ r1 r2, r1 ∈ response_reviews once.2 → r2 ∈ response_reviews twice.2 →
            ReviewBody r1 = ReviewBody r2 → sentiment r1 = sentiment r2) ∧
  twice.1 = once.1.
Proof.
  intros Hget. cbv zeta. rewrite !call_get by done.
  rewrite handle_get_twice. split; [done|]. split; [done|]. split; [|done].
  intros r1 r2 H1 H2 Hbody.
  pose proof (get_response_scored reviews env) as Hs.
  rewrite Forall_forall in Hs. by rewrite (Hs r1 H1), (Hs r2 H2), Hbody.
Qed.

End read_path.

(** ** The write path *)

Section write_path.
Context (polarity_scores : string → Sentiment).

Implicit Types (reviews : list Review) (env : environ) (amb : ambient).

Lemma call_post reviews env amb :
  REQUEST_METHOD env = "POST" →
  call polarity_scores reviews env amb = handle_post reviews env amb.
Proof.
  intros H. unfold call. rewrite H.
  by rewrite decide_False, decide_True.
Qed.

Lemma try_post_unfold reviews env amb request_body :
  wsgi_input env = Ok request_body →
  try_post reviews env amb =
  match truthy (param request_body "ReviewBody"),
        truthy (param request_body "Location") with
  | Some review_body, Some location =>
      if decide (location ∈ ALLOWED_LOCATIONS) then
        let new_review :=
          mk_review (Some (uuid4 amb)) review_body location
            (strftime (now amb)) None in
        Ok (reviews ++ [new_review],
            Response "201 Created" (JReview new_review))
      else
        Ok (reviews, Response "400 Bad Request" (JError "Invalid location"))
  | _, _ =>
      Ok (reviews, Response "400 Bad Request"
                     (JError "ReviewBody and Location are required fields"))
  end.
Proof.
  intros Hin. unfold try_post. rewrite Hin. simpl.
  by rewrite !first_value_param.
Qed.

(** The only exception the [try] body can raise is the one reading the
    request body raised. *)
Lemma try_post_raises reviews env amb e :
  try_post reviews env amb = Raise e → wsgi_input env = Raise e.
Proof.
  destruct (wsgi_input env) as [request_body|e'] eqn:Hin.
  - rewrite (try_post_unfold _ _ _ _ Hin). by repeat case_match.
  - unfold try_post. rewrite Hin. simpl. by intros [= ->].
Qed.

Lemma allowed_not_empty location :
  location ∈ ALLOWED_LOCATIONS → location ≠ "".
Proof.
  intros H ->. revert H. change ("" ∉ ALLOWED_LOCATIONS).
  apply (bool_decide_unpack ("" ∉ ALLOWED_LOCATIONS)). by vm_compute.
Qed.

(** C3. A POST with a non-empty [ReviewBody] and a [Location] of the
    allow-list is answered 201 with a record made of the identifier drawn
    for this request, the current time written as [YYYY-MM-DD HH:MM:SS]
    (19 characters that read back as that very time), the given text and
    location; that record, which has no [sentiment], is appended to the
    collection. *)
Theorem post_created reviews env amb request_body review_body location :
  REQUEST_METHOD env = "POST" →
  wsgi_input env = Ok request_body →
  param request_body "ReviewBody" = Some review_body →
  review_body ≠ "" →
  param request_body "Location" = Some location →
  location ∈ ALLOWED_LOCATIONS →
  valid_datetime (now amb) = true →
  let new_review :=
    mk_review (Some (uuid4 amb)) review_body location (strftime (now amb)) None in
  call polarity_scores reviews env amb =
    (reviews ++ [new_review], Response "201 Created" (JReview new_review)) ∧
  strptime_timestamp (Timestamp new_review) = Ok (now amb) ∧
  String.length (Timestamp new_review) = 19%nat ∧
  sentiment new_review = None.
Proof.
  intros Hpost Hin Hrb Hne Hloc Hal Hnow new_review.
  split; [|split; [by apply strptime_strftime|done]].
  rewrite call_post by done. unfold handle_post.
  rewrite (try_post_unfold _ _ _ _ Hin), Hrb, Hloc.
  rewrite !truthy_Some by (done || by apply allowed_not_empty).
  by rewrite decide_True.
Qed.

(** C4. A POST whose [ReviewBody] or [Location] is absent or empty is
    answered 400 with "ReviewBody and Location are required fields",
    whether or not the location is allowed; one that gives both, with a
    [Location] outside the allow-list, is answered 400 with "Invalid
    location", whatever the [ReviewBody].  Neither changes the
    collection. *)
Theorem post_rejected reviews env amb request_body :
  REQUEST_METHOD env = "POST" →
  wsgi_input env = Ok request_body →
  let review_body := param request_body "ReviewBody" in
  let location := param request_body "Location" in
  ((review_body = None ∨ review_body = Some "" ∨
    location = None ∨ location = Some "") →
   call polarity_scores reviews env amb =
     (reviews, Response "400 Bad Request"
                 (JError "ReviewBody and Location are required fields"))) ∧
  (∀ b l, review_body = Some b → b ≠ "" → location = Some l → l ≠ "" →
          l ∉ ALLOWED_LOCATIONS →
   call polarity_scores reviews env amb =
     (reviews, Response "400 Bad Request" (JError "Invalid location"))).
Proof.
  intros Hpost Hin. cbv zeta.
  rewrite call_post by done. unfold handle_post.
  rewrite (try_post_unfold _ _ _ _ Hin). split.
  - intros [H | [H | [H | H]]]; rewrite H; simpl; try done;
      by destruct (truthy _).
  - intros b l Hb Hbne Hl Hlne Hnot. rewrite Hb, Hl, !truthy_Some by done.
    by rewrite decide_False.
Qed.

(** One POST: either a 201 that appends the record it returns, whose
    location is allowed and whose timestamp parses, or a 400 or a 500 that
    changes nothing. *)
Lemma post_step reviews env amb :
  REQUEST_METHOD env = "POST" →
  valid_datetime (now amb) = true →
  let reviews' := (call polarity_scores reviews env amb).1 in
  let out := (call polarity_scores reviews env amb).2 in
  (∃ r, out = Response "201 Created" (JReview r) ∧ reviews' = reviews ++ [r] ∧
        Location r ∈ ALLOWED_LOCATIONS ∧
        strptime_timestamp (Timestamp r) = Ok (now amb)) ∨
  (∃ msg, (out = Response "400 Bad Request" (JError msg) ∨
           out = Response "500 Internal Server Error" (JError msg)) ∧
          reviews' = reviews).
Proof.
  intros Hpost Hnow. rewrite call_post by done. unfold handle_post.
  destruct (wsgi_input env) as [request_body|e] eqn:Hin.
  - rewrite (try_post_unfold _ _ _ _ Hin).
    destruct (truthy (param request_body "ReviewBody")) as [b|];
      [|simpl; eauto].
    destruct (truthy (param request_body "Location")) as [l|];
      [|simpl; eauto].
    case_decide; simpl; [|eauto].
    left. eexists. split; [done|]. split; [done|]. split; [done|].
    by apply strptime_strftime.
  - unfold try_post. rewrite Hin. simpl. eauto.
Qed.

(** C6. Along any sequence of POSTs, the collection grows by exactly the
    records returned with a 201, in order; each of them has a location of
    the allow-list and a timestamp that parses under
    ['%Y-%m-%d %H:%M:%S'].  A POST answered otherwise (400 or 500) adds
    nothing, and every POST is answered. *)
Theorem write_path_invariant reviews (requests : list (environ * ambient)) :
  Forall (fun req => REQUEST_METHOD req.1 = "POST" ∧
                     valid_datetime (now req.2) = true) requests →
  let reviews' := (serve polarity_scores reviews requests).1 in
  let outs := (serve polarity_scores reviews requests).2 in
  reviews' = reviews ++ omap accepted outs ∧
  Forall (fun r => Location r ∈ ALLOWED_LOCATIONS ∧
                   ∃ t, strptime_timestamp (Timestamp r) = Ok t)
    (omap accepted outs) ∧
  Forall (fun out => ∃ status body, out = Response status body) outs.
Proof.
  intros Hreq. cbv zeta. revert reviews.
  induction Hreq as [|[env amb] requests [Hpost Hnow] _ IH]; intros reviews.
  - simpl. by rewrite app_nil_r.
  - simpl in Hpost, Hnow. simpl.
    pose proof (post_step reviews env amb Hpost Hnow) as Hstep.
    destruct (call polarity_scores reviews env amb) as [reviews1 out].
    specialize (IH reviews1).
    destruct (serve polarity_scores reviews1 requests) as [reviews2 outs].
    simpl in *. destruct IH as (-> & Hacc & Hall).
    destruct Hstep as [(r & -> & -> & Hloc & Ht)|(msg & [->| ->] & ->)]; simpl.
    + split; [by rewrite <- app_assoc|]. split; [|eauto].
      constructor; eauto.
    + split; [done|]. split; [done|eauto].
    + split; [done|]. split; [done|eauto].
Qed.

(** C10. For a method other than GET and POST the handler falls through
    both branches: it returns [None] and never calls [start_response]; the
    collection is untouched. *)
Theorem other_method_no_response reviews env amb :
  REQUEST_METHOD env ≠ "GET" →
  REQUEST_METHOD env ≠ "POST" →
  call polarity_scores reviews env amb = (reviews, ReturnedNone).
Proof. intros Hg Hp. unfold call. by rewrite !decide_False. Qed.

End write_path.

(** * The properties at work on sample requests *)

Lemma date_filter_bounds_witness :
  bound (Some "2021-01-05") = Ok (Some (mk_datetime 2021 1 5 0 0 0)) ∧
  bound (Some "2021-01-06") = Ok (Some (mk_datetime 2021 1 6 0 0 0)) ∧
  Forall (fun i => ∃ t, timestamp_of Sample.store i = Ok t)
    (refs (all_reviews Sample.store)) ∧
  ∃ kept,
    date_filter Sample.store (Some "2021-01-05") (Some "2021-01-06")
      (all_reviews Sample.store) = Ok kept ∧
    (1%nat ∈ refs kept ↔ midnight (mk_datetime 2021 1 6 0 0 0)) ∧
    (3%nat ∈ refs kept ↔ midnight (mk_datetime 2021 1 6 12 0 0)).
Proof.
  assert (bound (Some "2021-01-05") = Ok (Some (mk_datetime 2021 1 5 0 0 0)))
    as H1 by reflexivity.
  assert (bound (Some "2021-01-06") = Ok (Some (mk_datetime 2021 1 6 0 0 0)))
    as H2 by reflexivity.
  assert (Forall (fun i => ∃ t, timestamp_of Sample.store i = Ok t)
            (refs (all_reviews Sample.store))) as H3.
  { repeat constructor; eexists; reflexivity. }
  split; [exact H1|]. split; [exact H2|]. split; [exact H3|].
  destruct (date_filter_bounds Sample.store _ _ _ _ _ H1 H2 H3)
    as (kept & Hk & _ & _ & _ & _ & Hday).
  exists kept. split; [exact Hk|]. split.
  - apply (Hday 1%nat _ _ eq_refl).
    + right. left.
    + reflexivity.
    + by repeat split.
    + by intros d' [= <-].
  - apply (Hday 3%nat _ _ eq_refl).
    + right. right. right. left.
    + reflexivity.
    + by repeat split.
    + by intros d' [= <-].
Defined.

Lemma get_sorted_stable_witness :
  REQUEST_METHOD (Sample.get "") = "GET" ∧
  call Sample.scores Sample.store (Sample.get "") Sample.clock =
    (Sample.with_score <$> [Sample.great; Sample.plain; Sample.late;
                            Sample.terrible],
     Response "200 OK"
       (JReviews (Sample.with_score <$>
          [Sample.great; Sample.plain; Sample.late; Sample.terrible]))) ∧
  ∃ ks,
    compound_of <$> (Sample.with_score <$>
      [Sample.great; Sample.plain; Sample.late; Sample.terrible]) = Some <$> ks ∧
    StronglySorted Z.ge ks.
Proof.
  assert (call Sample.scores Sample.store (Sample.get "") Sample.clock =
    (Sample.with_score <$> [Sample.great; Sample.plain; Sample.late;
                            Sample.terrible],
     Response "200 OK"
       (JReviews (Sample.with_score <$>
          [Sample.great; Sample.plain; Sample.late; Sample.terrible]))))
    as H by (vm_compute; reflexivity).
  split; [reflexivity|]. split; [exact H|].
  destruct (get_sorted_stable Sample.scores Sample.store (Sample.get "")
              Sample.clock _ _ eq_refl H)
    as (filtered & ks & _ & Hks & Hsorted & _).
  exists ks. split; [exact Hks | exact Hsorted].
Defined.

Lemma post_created_witness :
  REQUEST_METHOD (Sample.post "ReviewBody=Great stay&Location=Denver, Colorado")
    = "POST" ∧
  param "ReviewBody=Great stay&Location=Denver, Colorado" "ReviewBody"
    = Some "Great stay" ∧
  param "ReviewBody=Great stay&Location=Denver, Colorado" "Location"
    = Some "Denver, Colorado" ∧
  "Denver, Colorado" ∈ ALLOWED_LOCATIONS ∧
  valid_datetime (now Sample.clock) = true ∧
  call Sample.scores Sample.store
    (Sample.post "ReviewBody=Great stay&Location=Denver, Colorado")
    Sample.clock =
    (Sample.store ++ [Sample.posted],
     Response "201 Created" (JReview Sample.posted)) ∧
  strptime_timestamp (Timestamp Sample.posted) = Ok (now Sample.clock).
Proof.
  assert ("Denver, Colorado" ∈ ALLOWED_LOCATIONS) as Hal.
  { apply (bool_decide_unpack _). vm_compute. exact I. }
  assert (param "ReviewBody=Great stay&Location=Denver, Colorado" "ReviewBody"
          = Some "Great stay") as Hb by (vm_compute; reflexivity).
  assert (param "ReviewBody=Great stay&Location=Denver, Colorado" "Location"
          = Some "Denver, Colorado") as Hl by (vm_compute; reflexivity).
  split; [reflexivity|]. split; [exact Hb|]. split; [exact Hl|].
  split; [exact Hal|]. split; [reflexivity|].
  destruct (post_created Sample.scores Sample.store
              (Sample.post "ReviewBody=Great stay&Location=Denver, Colorado")
              Sample.clock _ "Great stay" "Denver, Colorado"
              eq_refl eq_refl Hb ltac:(discriminate) Hl Hal eq_refl)
    as (Hcall & Hts & _).
  split; [exact Hcall | exact Hts].
Defined.

Lemma post_rejected_witness :
  REQUEST_METHOD (Sample.post "Location=Nowhere, Atlantis") = "POST" ∧
  param "Location=Nowhere, Atlantis" "ReviewBody" = None ∧
  param "Location=Nowhere, Atlantis" "Location" = Some "Nowhere, Atlantis" ∧
  call Sample.scores Sample.store (Sample.post "Location=Nowhere, Atlantis")
    Sample.clock =
    (Sample.store,
     Response "400 Bad Request"
       (JError "ReviewBody and Location are required fields")).
Proof.
  assert (param "Location=Nowhere, Atlantis" "ReviewBody" = None) as Hb
    by (vm_compute; reflexivity).
  split; [reflexivity|]. split; [exact Hb|].
  split; [vm_compute; reflexivity|].
  apply (proj1 (post_rejected Sample.scores Sample.store
                  (Sample.post "Location=Nowhere, Atlantis") Sample.clock
                  _ eq_refl eq_refl)).
  left. exact Hb.
Defined.

Lemma get_invalid_location_witness :
  REQUEST_METHOD (Sample.get "location=Nowhere%2C+Atlantis&start_date=yesterday")
    = "GET" ∧
  param "location=Nowhere%2C+Atlantis&start_date=yesterday" "location"
    = Some "Nowhere, Atlantis" ∧
  "Nowhere, Atlantis" ∉ ALLOWED_LOCATIONS ∧
  call Sample.scores Sample.store
    (Sample.get "location=Nowhere%2C+Atlantis&start_date=yesterday")
    Sample.clock =
    (Sample.store, Response "400 Bad Request" (JError "Invalid location")).
Proof.
  assert (param "location=Nowhere%2C+Atlantis&start_date=yesterday" "location"
          = Some "Nowhere, Atlantis") as Hl by (vm_compute; reflexivity).
  assert ("Nowhere, Atlantis" ∉ ALLOWED_LOCATIONS) as Hnot.
  { apply (bool_decide_unpack _). vm_compute. exact I. }
  split; [reflexivity|]. split; [exact Hl|]. split; [exact Hnot|].
  apply (get_invalid_location Sample.scores Sample.store
           (Sample.get "location=Nowhere%2C+Atlantis&start_date=yesterday")
           Sample.clock "Nowhere, Atlantis" eq_refl Hl ltac:(discriminate) Hnot).
Defined.

Lemma write_path_invariant_witness :
  Forall (fun req => REQUEST_METHOD req.1 = "POST" ∧
                     valid_datetime (now req.2) = true) Sample.posts ∧
  (serve Sample.scores Sample.store Sample.posts).1 =
    Sample.store ++ omap accepted (serve Sample.scores Sample.store Sample.posts).2 ∧
  omap accepted (serve Sample.scores Sample.store Sample.posts).2 =
    [Sample.posted].
Proof.
  assert (Forall (fun req => REQUEST_METHOD req.1 = "POST" ∧
                     valid_datetime (now req.2) = true) Sample.posts) as H.
  { repeat constructor. }
  split; [exact H|].
  split; [|vm_compute; reflexivity].
  exact (proj1 (write_path_invariant Sample.scores Sample.store Sample.posts H)).
Defined.

(** C7, as the spec has it, fails: a GET with no parameter stores a score in
    every record and leaves the collection in the order of the response. *)
Lemma get_changes_collection :
  REQUEST_METHOD (Sample.get "") = "GET" ∧
  (call Sample.scores [Sample.terrible; Sample.great] (Sample.get "")
     Sample.clock).1 =
    [Sample.with_score Sample.great; Sample.with_score Sample.terrible] ∧
  (call Sample.scores [Sample.terrible; Sample.great] (Sample.get "")
     Sample.clock).1 ≠ [Sample.terrible; Sample.great].
Proof.
  split; [reflexivity|]. split; [vm_compute; reflexivity|].
  vm_compute. discriminate.
Qed.

Lemma get_store_effect_witness :
  REQUEST_METHOD (Sample.get "location=Denver%2C+Colorado") = "GET" ∧
  param "location=Denver%2C+Colorado" "location" = Some "Denver, Colorado" ∧
  Forall2 (same_but_sentiment Sample.scores) Sample.store
    (call Sample.scores Sample.store (Sample.get "location=Denver%2C+Colorado")
       Sample.clock).1.
Proof.
  assert (param "location=Denver%2C+Colorado" "location"
          = Some "Denver, Colorado") as Hl by (vm_compute; reflexivity).
  split; [reflexivity|]. split; [exact Hl|].
  destruct (get_store_effect Sample.scores Sample.store
              (Sample.get "location=Denver%2C+Colorado") Sample.clock eq_refl)
    as (_ & _ & Hkeep).
  apply Hkeep. exists "Denver, Colorado". split; [discriminate|].
  left. exact Hl.
Defined.

(** C8, as the spec has it, fails: a [start_date] that is not a date makes
    [strptime] raise, and nothing in the GET branch catches it. *)
Lemma get_malformed_date_raises :
  REQUEST_METHOD (Sample.get "start_date=yesterday") = "GET" ∧
  call Sample.scores Sample.store (Sample.get "start_date=yesterday")
    Sample.clock = (Sample.store, Raised ValueError).
Proof. split; [reflexivity|]. vm_compute. reflexivity. Qed.

Lemma get_outcomes_witness :
  REQUEST_METHOD (Sample.get "end_date=2021-01-06") = "GET" ∧
  ((∃ body,
      (call Sample.scores Sample.store (Sample.get "end_date=2021-01-06")
         Sample.clock).2 = Response "200 OK" (JReviews body) ∧
      Forall (fun r => sentiment r = Some (Sample.scores (ReviewBody r))) body) ∨
   (call Sample.scores Sample.store (Sample.get "end_date=2021-01-06")
      Sample.clock).2 = Response "400 Bad Request" (JError "Invalid location") ∨
   (call Sample.scores Sample.store (Sample.get "end_date=2021-01-06")
      Sample.clock).2 = Raised ValueError).
Proof.
  split; [reflexivity|].
  destruct (get_outcomes Sample.scores Sample.store
              (Sample.get "end_date=2021-01-06") Sample.clock eq_refl)
    as [H|[[H _]|[H _]]].
  - left. exact H.
  - right. left. exact H.
  - right. right. exact H.
Defined.

Lemma get_idempotent_witness :
  REQUEST_METHOD (Sample.get "location=Denver%2C+Colorado") = "GET" ∧
  (call Sample.scores
     (call Sample.scores Sample.store
        (Sample.get "location=Denver%2C+Colorado") Sample.clock).1
     (Sample.get "location=Denver%2C+Colorado") Sample.clock).2 =
  (call Sample.scores Sample.store
     (Sample.get "location=Denver%2C+Colorado") Sample.clock).2.
Proof.
  split; [reflexivity|].
  exact (proj1 (get_idempotent Sample.scores Sample.store
                  (Sample.get "location=Denver%2C+Colorado")
                  Sample.clock Sample.clock eq_refl)).
Defined.

Lemma other_method_no_response_witness :
  REQUEST_METHOD (mk_environ "DELETE" "" (Ok "")) ≠ "GET" ∧
  REQUEST_METHOD (mk_environ "DELETE" "" (Ok "")) ≠ "POST" ∧
  call Sample.scores Sample.store (mk_environ "DELETE" "" (Ok ""))
    Sample.clock = (Sample.store, ReturnedNone).
Proof.
  split; [discriminate|]. split; [discriminate|].
  apply (other_method_no_response Sample.scores Sample.store
           (mk_environ "DELETE" "" (Ok "")) Sample.clock);
    discriminate.
Defined.

(** * Examples *)

Example strptime_date_padded :
  strptime_date "2021-01-05" = Ok (mk_datetime 2021 1 5 0 0 0).
Proof. reflexivity. Qed.

Example strptime_date_unpadded :
  strptime_date "2021-1-5" = Ok (mk_datetime 2021 1 5 0 0 0).
Proof. reflexivity. Qed.

Example strptime_date_not_a_day : strptime_date "2021-02-30" = Raise ValueError.
Proof. reflexivity. Qed.

Example strptime_date_left_over : strptime_date "2021-01-051" = Raise ValueError.
Proof. reflexivity. Qed.

Example strptime_timestamp_blanks :
  strptime_timestamp "2021-01-05  23:59:59" =
  Ok (mk_datetime 2021 1 5 23 59 59).
Proof. reflexivity. Qed.

Example strptime_timestamp_second_60 :
  strptime_timestamp "2021-01-05 23:59:60" = Raise ValueError.
Proof. reflexivity. Qed.

Example strftime_clock : strftime (now Sample.clock) = "2024-02-29 13:05:09".
Proof. reflexivity. Qed.

Example parse_qs_form :
  map_to_list (Urllib.parse_qs "a=1&a=2&b=&c&d=%41+%4a%zz&&e=%2B") =
  [("e", ["+"]); ("a", ["1"; "2"]); ("d", ["A J%zz"])].
Proof. vm_compute. reflexivity. Qed.

(** The end date admits the record stamped at midnight of that day and not
    the two stamped later the same day. *)
Example end_date_same_day :
  response_ids
    (call Sample.scores Sample.store (Sample.get "end_date=2021-01-06")
       Sample.clock).2 = [Some "r-2"; Some "r-1"].
Proof. vm_compute. reflexivity. Qed.

(** The round trip of the spec: the record a POST returns comes back from a
    GET on its location, with a positive compound score. *)
Example post_then_get :
  ∃ body,
    (serve Sample.scores Sample.store
       [(Sample.post "ReviewBody=Great stay&Location=Denver, Colorado",
         Sample.clock);
        (Sample.get "location=Denver%2C+Colorado", Sample.clock)]).2 =
    [Response "201 Created" (JReview Sample.posted);
     Response "200 OK" (JReviews body)] ∧
    Sample.with_score Sample.posted ∈ body ∧
    compound_of (Sample.with_score Sample.posted) = Some 6249.
Proof.
  eexists. split; [vm_compute; reflexivity|]. split; [|reflexivity].
  right. left.
Qed.

(** * Further properties of the handler *)

(** ** Comprehensions as filters *)

Lemma filter_r_holds {A} (p : A → result bool) l l' :
  filter_r p l = Ok l' → l' = filter (fun x => holds (p x)) l.
Proof.
  revert l'. induction l as [|y l IH]; intros l' Hl; simpl in Hl.
  - by injection Hl as <-.
  - destruct (p y) as [b|] eqn:Ey; simpl in Hl; [|done].
    destruct (filter_r p l) as [l''|]; simpl in Hl; [|done].
    injection Hl as <-. rewrite filter_cons, Ey, (IH l'' eq_refl).
    by destruct b.
Qed.

Lemma filter_all {A} (P : A → Prop) `{!∀ x, Decision (P x)} (l : list A) :
  (∀ x, P x) → filter P l = l.
Proof.
  intros HP. induction l as [|x l IH]; [done|].
  by rewrite filter_cons_True, IH.
Qed.

Lemma deref_filter (P : Review → Prop) `{!∀ r, Decision (P r)}
    (l : list Review) :
  (fun i => l !!! i) <$> filter (fun i : nat => P (l !!! i)) (seq 0 (length l)) =
  filter P l.
Proof.
  rewrite <- (filter_fmap_comm (fun i : nat => l !!! i) P).
  by rewrite fmap_lookup_total_seq.
Qed.

Lemma bound_None date : bound date = Ok None → truthy date = None.
Proof.
  unfold bound. destruct (truthy date) as [s|]; [|done].
  by intros (d & _ & ?)%bind_Ok.
Qed.

Lemma bound_truthy_None date : truthy date = None → bound date = Ok None.
Proof. unfold bound. by intros ->. Qed.

Lemma start_filter_holds reviews start_date filtered kept :
  start_filter reviews start_date filtered = Ok kept →
  ∃ sd, bound start_date = Ok sd ∧
    refs kept =
    filter (fun i => on_or_after sd (reviews !!! i)) (refs filtered).
Proof.
  unfold start_filter, bound. destruct (truthy start_date) as [s|].
  - intros (d & Hd & (l & Hl & [= <-])%bind_Ok)%bind_Ok.
    exists (Some d). rewrite Hd. split; [done|]. simpl.
    rewrite (filter_r_holds _ _ _ Hl). apply list_filter_iff. intros i.
    unfold not_before, on_or_after.
    destruct (strptime_timestamp _); simpl; [|done]. by destruct (datetime_ge _ _).
  - intros [= <-]. exists None. split; [done|].
    by rewrite filter_all.
Qed.

Lemma end_filter_holds reviews end_date filtered kept :
  end_filter reviews end_date filtered = Ok kept →
  ∃ ed, bound end_date = Ok ed ∧
    refs kept =
    filter (fun i => on_or_before ed (reviews !!! i)) (refs filtered).
Proof.
  unfold end_filter, bound. destruct (truthy end_date) as [s|].
  - intros (d & Hd & (l & Hl & [= <-])%bind_Ok)%bind_Ok.
    exists (Some d). rewrite Hd. split; [done|]. simpl.
    rewrite (filter_r_holds _ _ _ Hl). apply list_filter_iff. intros i.
    unfold not_after, on_or_before.
    destruct (strptime_timestamp _); simpl; [|done]. by destruct (datetime_le _ _).
  - intros [= <-]. exists None. split; [done|].
    by rewrite filter_all.
Qed.

(** What [select] returns when it returns a list: the positions of the
    records the query asks for, in the order of the collection. *)
Lemma select_holds reviews qs filtered :
  select reviews qs = Ok (Some filtered) →
  ∃ sd ed,
    bound (param qs "start_date") = Ok sd ∧
    bound (param qs "end_date") = Ok ed ∧
    location_ok qs ∧
    refs filtered =
    filter (fun i => selected (param qs "location") sd ed (reviews !!! i))
      (seq 0 (length reviews)).
Proof.
  rewrite select_unfold. unfold date_filter.
  destruct (truthy (param qs "location")) as [loc|] eqn:Hloc.
  - case_decide as Hal; [|done].
    intros (f & (f1 & H1 & H2)%bind_Ok & [= <-])%bind_Ok.
    apply start_filter_holds in H1 as (sd & Hsd & Hr1).
    apply end_filter_holds in H2 as (ed & Hed & Hr2).
    exists sd, ed. split; [done|]. split; [done|].
    split; [unfold location_ok; rewrite Hloc; by intros l [= <-]|].
    rewrite Hr2, Hr1. simpl. rewrite !list_filter_filter.
    apply list_filter_iff. intros i.
    unfold selected, at_location. rewrite Hloc. tauto.
  - intros (f & (f1 & H1 & H2)%bind_Ok & [= <-])%bind_Ok.
    apply start_filter_holds in H1 as (sd & Hsd & Hr1).
    apply end_filter_holds in H2 as (ed & Hed & Hr2).
    exists sd, ed. split; [done|]. split; [done|].
    split; [unfold location_ok; by rewrite Hloc|].
    rewrite Hr2, Hr1. simpl. rewrite !list_filter_filter.
    apply list_filter_iff. intros i.
    unfold selected, at_location. rewrite Hloc. tauto.
Qed.

(** ** The read path, record by record *)

Section read_path_exact.
Context (polarity_scores : string → Sentiment).

Local Abbreviation score := (set_sentiment polarity_scores).
Local Abbreviation scored_at := (annotate polarity_scores).

Implicit Types (reviews : list Review) (filtered : listvar).

Lemma scored_refs reviews (l : list nat) :
  Forall (fun i => (i < length reviews)%nat) l →
  (fun i => scored_at reviews l !!! i) <$> l =
  score <$> ((fun i => reviews !!! i) <$> l).
Proof.
  intros Hl. rewrite Forall_forall in Hl. rewrite <- list_fmap_compose.
  apply list_fmap_ext. intros j i Hi%list_elem_of_lookup_2. simpl.
  rewrite annotate_total by auto. by rewrite decide_True.
Qed.

(** Lines 83 to 92 on a list of valid positions: a 200 whose body holds the
    listed records, each with its score. *)
Lemma rank_selected reviews filtered :
  Forall (fun i => (i < length reviews)%nat) (refs filtered) →
  ∃ body,
    rank polarity_scores reviews filtered =
      (if aliased filtered then body else scored_at reviews (refs filtered),
       Response "200 OK" (JReviews body)) ∧
    body ≡ₚ score <$> ((fun i => reviews !!! i) <$> refs filtered).
Proof.
  intros Hl. rewrite rank_200 by done. eexists. split; [done|].
  destruct (ranked_body polarity_scores reviews (refs filtered) Hl)
    as (_ & Hperm & _).
  by rewrite Hperm, scored_refs.
Qed.

Lemma handle_get_selected reviews env filtered :
  select reviews (QUERY_STRING env) = Ok (Some filtered) →
  ∃ sd ed body,
    bound (param (QUERY_STRING env) "start_date") = Ok sd ∧
    bound (param (QUERY_STRING env) "end_date") = Ok ed ∧
    location_ok (QUERY_STRING env) ∧
    handle_get polarity_scores reviews env =
      (if aliased filtered then body else scored_at reviews (refs filtered),
       Response "200 OK" (JReviews body)) ∧
    body ≡ₚ
      score <$> filter (selected (param (QUERY_STRING env) "location") sd ed)
                  reviews.
Proof.
  intros Hsel. unfold handle_get. rewrite Hsel.
  destruct (select_holds _ _ _ Hsel) as (sd & ed & Hsd & Hed & Hloc & Hrefs).
  destruct (rank_selected reviews filtered (select_valid _ _ _ Hsel))
    as (body & Hrank & Hbody).
  exists sd, ed, body. repeat (split; [done|]).
  by rewrite Hbody, Hrefs, deref_filter.
Qed.

(** X1. Whenever a GET is answered 200, the dates it gave were dates, its
    location (if any) is of the allow-list, and the body lists exactly the
    stored records at that location and within the bounds, each once and
    each with the score of its text. *)
Theorem get_200_exact reviews env amb reviews' body :
  REQUEST_METHOD env = "GET" →
  call polarity_scores reviews env amb =
    (reviews', Response "200 OK" (JReviews body)) →
  ∃ sd ed,
    bound (param (QUERY_STRING env) "start_date") = Ok sd ∧
    bound (param (QUERY_STRING env) "end_date") = Ok ed ∧
    location_ok (QUERY_STRING env) ∧
    body ≡ₚ
      score <$> filter (selected (param (QUERY_STRING env) "location") sd ed)
                  reviews.
Proof.
  intros Hget. rewrite call_get by done.
  destruct (select reviews (QUERY_STRING env)) as [[filtered|]|e] eqn:Hsel.
  - destruct (handle_get_selected reviews env filtered Hsel)
      as (sd & ed & body' & Hsd & Hed & Hloc & -> & Hbody).
    intros [= _ <-]. by exists sd, ed.
  - unfold handle_get. by rewrite Hsel.
  - unfold handle_get. by rewrite Hsel.
Qed.

(** *** When a GET succeeds *)

Lemma parses_refs reviews (l : list nat) :
  Forall parses reviews →
  Forall (fun i => (i < length reviews)%nat) l →
  Forall (fun i => ∃ t, timestamp_of reviews i = Ok t) l.
Proof.
  intros Hp Hl. rewrite Forall_forall in Hp. eapply Forall_impl; [exact Hl|].
  intros i Hi. apply Hp. by apply list_elem_of_lookup_total_2.
Qed.

Lemma date_filter_succeeds reviews start_date end_date filtered sd ed :
  bound start_date = Ok sd →
  bound end_date = Ok ed →
  (sd = None ∧ ed = None) ∨
    Forall (fun i => ∃ t, timestamp_of reviews i = Ok t) (refs filtered) →
  ∃ kept, date_filter reviews start_date end_date filtered = Ok kept.
Proof.
  intros Hsd Hed [[-> ->]|Hts]; unfold date_filter.
  - apply bound_None in Hsd, Hed. unfold start_filter, end_filter.
    rewrite Hsd. simpl. rewrite Hed. eauto.
  - destruct (start_filter_spec _ _ _ _ Hsd Hts) as (f1 & Hf1 & _ & Hin1).
    assert (Forall (fun i => ∃ t, timestamp_of reviews i = Ok t) (refs f1))
      as Hts1.
    { rewrite Forall_forall in Hts |- *. intros i Hi. apply Hts.
      by apply Hin1 in Hi as [? _]. }
    destruct (end_filter_spec _ _ _ _ Hed Hts1) as (f2 & Hf2 & _).
    rewrite Hf1. simpl. eauto.
Qed.

Lemma select_succeeds reviews qs sd ed :
  location_ok qs →
  bound (param qs "start_date") = Ok sd →
  bound (param qs "end_date") = Ok ed →
  (sd = None ∧ ed = None) ∨ Forall parses reviews →
  ∃ filtered, select reviews qs = Ok (Some filtered).
Proof.
  intros Hloc Hsd Hed Hdata. rewrite select_unfold. unfold location_ok in Hloc.
  destruct (truthy (param qs "location")) as [loc|].
  - rewrite decide_True by auto.
    destruct (date_filter_succeeds reviews _ _
                (location_filter reviews loc (all_reviews reviews)) sd ed Hsd Hed)
      as [kept ->]; [|simpl; eauto].
    destruct Hdata as [?|Hp]; [by left|right].
    apply parses_refs; [done|apply location_filter_valid].
  - destruct (date_filter_succeeds reviews _ _ (all_reviews reviews) sd ed
                Hsd Hed) as [kept ->]; [|simpl; eauto].
    destruct Hdata as [?|Hp]; [by left|right].
    apply parses_refs; [done|apply all_reviews_valid].
Qed.

Lemma get_succeeds reviews env sd ed :
  location_ok (QUERY_STRING env) →
  bound (param (QUERY_STRING env) "start_date") = Ok sd →
  bound (param (QUERY_STRING env) "end_date") = Ok ed →
  (sd = None ∧ ed = None) ∨ Forall parses reviews →
  ∃ reviews' body,
    handle_get polarity_scores reviews env =
      (reviews', Response "200 OK" (JReviews body)) ∧
    body ≡ₚ
      score <$> filter (selected (param (QUERY_STRING env) "location") sd ed)
                  reviews.
Proof.
  intros Hloc Hsd Hed Hdata.
  destruct (select_succeeds reviews _ sd ed Hloc Hsd Hed Hdata) as [f Hsel].
  destruct (handle_get_selected reviews env f Hsel)
    as (sd' & ed' & body & Hsd' & Hed' & _ & Hget & Hbody).
  rewrite Hsd in Hsd'. rewrite Hed in Hed'.
  injection Hsd' as <-. injection Hed' as <-. eauto.
Qed.

(** X2. A GET whose location (if any) is of the allow-list and whose dates
    (if any) are dates is answered 200 when every stored timestamp reads
    under ['%Y-%m-%d %H:%M:%S'], with exactly the records at that location
    and within the bounds. *)
Theorem get_answers_matching reviews env amb sd ed :
  REQUEST_METHOD env = "GET" →
  location_ok (QUERY_STRING env) →
  bound (param (QUERY_STRING env) "start_date") = Ok sd →
  bound (param (QUERY_STRING env) "end_date") = Ok ed →
  Forall parses reviews →
  ∃ reviews' body,
    call polarity_scores reviews env amb =
      (reviews', Response "200 OK" (JReviews body)) ∧
    body ≡ₚ
      score <$> filter (selected (param (QUERY_STRING env) "location") sd ed)
                  reviews.
Proof.
  intros Hget Hloc Hsd Hed Hp. rewrite call_get by done.
  apply get_succeeds; auto.
Qed.

(** X3. A GET that gives no [start_date] and no [end_date] never reads a
    stored timestamp: with a location of the allow-list, or none, it is
    answered 200 with every record at that location, whatever the stored
    timestamps hold. *)
Theorem get_without_dates reviews env amb :
  REQUEST_METHOD env = "GET" →
  location_ok (QUERY_STRING env) →
  truthy (param (QUERY_STRING env) "start_date") = None →
  truthy (param (QUERY_STRING env) "end_date") = None →
  ∃ reviews' body,
    call polarity_scores reviews env amb =
      (reviews', Response "200 OK" (JReviews body)) ∧
    body ≡ₚ
      score <$> filter (at_location (param (QUERY_STRING env) "location"))
                  reviews.
Proof.
  intros Hget Hloc Hs He. rewrite call_get by done.
  destruct (get_succeeds reviews env None None Hloc
              (bound_truthy_None _ Hs) (bound_truthy_None _ He))
    as (reviews' & body & Hcall & Hbody); [by left|].
  exists reviews', body. split; [done|]. rewrite Hbody.
  assert (filter (selected (param (QUERY_STRING env) "location") None None)
            reviews =
          filter (at_location (param (QUERY_STRING env) "location")) reviews)
    as ->; [|done].
  apply list_filter_iff. intros r. unfold selected. simpl. tauto.
Qed.

End read_path_exact.

(** ** Dates that are not dates, and what a read writes *)

Section read_path_effects.
Context (polarity_scores : string → Sentiment).

Local Abbreviation score := (set_sentiment polarity_scores).
Local Abbreviation scored_at := (annotate polarity_scores).

Implicit Types (reviews : list Review) (filtered : listvar).




(** X5. A GET answered 200 that gave a location or a date writes the score
    in exactly the stored records it returns and leaves every other record,
    and the order of the collection, as they were. *)
Theorem get_filtered_touches reviews env amb reviews' body :
  REQUEST_METHOD env = "GET" →
  call polarity_scores reviews env amb =
    (reviews', Response "200 OK" (JReviews body)) →
  (∃ s, truthy (param (QUERY_STRING env) "location") = Some s ∨
        truthy (param (QUERY_STRING env) "start_date") = Some s ∨
        truthy (param (QUERY_STRING env) "end_date") = Some s) →
  ∃ sd ed,
    bound (param (QUERY_STRING env) "start_date") = Ok sd ∧
    bound (param (QUERY_STRING env) "end_date") = Ok ed ∧
    Forall2 (fun r r' =>
               r' = if decide (selected (param (QUERY_STRING env) "location")
                                 sd ed r)
                    then score r else r)
      reviews reviews'.
Proof.
  intros Hget. rewrite call_get by done. unfold handle_get.
  destruct (select reviews (QUERY_STRING env)) as [[filtered|]|e] eqn:Hsel;
    [|done..].
  pose proof (select_valid _ _ _ Hsel) as Hvalid.
  rewrite rank_200 by done.
  destruct (select_holds _ _ _ Hsel) as (sd & ed & Hsd & Hed & _ & Hrefs).
  destruct (aliased filtered) eqn:Hal.
  - destruct (select_aliased _ _ _ Hsel Hal) as (Hl & Hs & He & _).
    intros _ (s & [H|[H|H]]); congruence.
  - intros [= <- _] _. exists sd, ed. split; [done|]. split; [done|].
    apply Forall2_same_length_lookup. split; [by rewrite length_annotate|].
    intros i r r' Hr. rewrite annotate_lookup, Hr, Hrefs.
    pose proof (lookup_lt_Some _ _ _ Hr) as Hi.
    pose proof (list_lookup_total_correct _ _ _ Hr) as Hri.
    destruct (decide (selected _ sd ed r)) as [Hsel'|Hsel'].
    + rewrite decide_True; [by intros [= <-]|].
      apply list_elem_of_filter. rewrite Hri.
      split; [done|]. apply elem_of_seq. lia.
    + rewrite decide_False; [by intros [= <-]|].
      intros [? _]%list_elem_of_filter. by rewrite Hri in *.
Qed.

(** X6. A GET that gives no location and no date sorts the stored list
    itself: after it the collection is the body of the response, that is,
    every stored record with its score, in the order of the response. *)
Theorem get_unfiltered_reorders reviews env amb :
  REQUEST_METHOD env = "GET" →
  truthy (param (QUERY_STRING env) "location") = None →
  truthy (param (QUERY_STRING env) "start_date") = None →
  truthy (param (QUERY_STRING env) "end_date") = None →
  ∃ body,
    call polarity_scores reviews env amb =
      (body, Response "200 OK" (JReviews body)) ∧
    body ≡ₚ score <$> reviews.
Proof.
  intros Hget Hl Hs He. rewrite call_get by done. unfold handle_get.
  rewrite select_none by done.
  destruct (rank_selected polarity_scores reviews (all_reviews reviews)
              (all_reviews_valid reviews)) as (body & -> & Hbody).
  exists body. split; [done|].
  by rewrite Hbody; simpl; rewrite fmap_lookup_total_seq.
Qed.

(** *** Scores left in the collection do not count *)

Lemma same_records_lookup reviews reviews2 (i : nat) :
  Forall2 (fun r r2 => without_sentiment r = without_sentiment r2)
    reviews reviews2 →
  without_sentiment (reviews !!! i) = without_sentiment (reviews2 !!! i).
Proof.
  intros H. rewrite !list_lookup_total_alt.
  destruct (reviews !! i) as [r|] eqn:Hr.
  - destruct (Forall2_lookup_l _ _ _ _ _ H Hr) as (r2 & -> & ?). done.
  - apply lookup_ge_None in Hr. rewrite (Forall2_length _ _ _ H) in Hr.
    by rewrite (lookup_ge_None_2 reviews2).
Qed.

Lemma score_without_sentiment r r2 :
  without_sentiment r = without_sentiment r2 → score r = score r2.
Proof. destruct r, r2. by intros [= -> -> -> ->]. Qed.

(** X7. The score of a response is computed anew on every read: two
    collections that differ only in the [sentiment] their records carry get
    the same answer to the same GET. *)
Theorem get_ignores_stored_sentiment reviews reviews2 env amb :
  REQUEST_METHOD env = "GET" →
  Forall2 (fun r r2 => without_sentiment r = without_sentiment r2)
    reviews reviews2 →
  (call polarity_scores reviews2 env amb).2 =
  (call polarity_scores reviews env amb).2.
Proof.
  intros Hget Hsame. rewrite !call_get by done.
  pose proof (Forall2_length _ _ _ Hsame) as Hlen.
  assert (∀ i : nat, Location (reviews2 !!! i) = Location (reviews !!! i) ∧
                     Timestamp (reviews2 !!! i) = Timestamp (reviews !!! i) ∧
                     ReviewBody (reviews2 !!! i) = ReviewBody (reviews !!! i))
    as Hfields.
  { intros i. pose proof (same_records_lookup _ _ i Hsame) as Hi.
    destruct (reviews !!! i), (reviews2 !!! i). by injection Hi as -> -> -> ->. }
  unfold handle_get.
  rewrite (select_ext reviews reviews2) by (done || intros i; split; apply Hfields).
  destruct (select reviews (QUERY_STRING env)) as [[filtered|]|e] eqn:Hsel;
    [|done..].
  pose proof (select_valid _ _ _ Hsel) as Hvalid.
  rewrite !rank_200 by (by rewrite <- ?Hlen). simpl. do 2 f_equal.
  assert ((fun i : nat =>
             (compound (polarity_scores (ReviewBody (reviews2 !!! i))), i)) <$>
            refs filtered =
          (fun i : nat =>
             (compound (polarity_scores (ReviewBody (reviews !!! i))), i)) <$>
            refs filtered) as ->.
  { apply list_fmap_ext. intros j i _. by rewrite (proj2 (proj2 (Hfields i))). }
  apply list_fmap_ext. intros j i Hi%list_elem_of_lookup_2.
  rewrite order_perm in Hi. rewrite Forall_forall in Hvalid.
  rewrite !annotate_total by (rewrite <- ?Hlen; auto).
  rewrite !decide_True by done.
  apply score_without_sentiment. symmetry. by apply same_records_lookup.
Qed.

End read_path_effects.

(** ** Runs of requests *)

Section runs.
Context (polarity_scores : string → Sentiment).

Local Abbreviation score := (set_sentiment polarity_scores).

Implicit Types (reviews : list Review) (env : environ) (amb : ambient).

Lemma call_other reviews env amb :
  REQUEST_METHOD env ≠ "GET" →
  REQUEST_METHOD env ≠ "POST" →
  call polarity_scores reviews env amb = (reviews, ReturnedNone).
Proof. intros Hg Hp. unfold call. by rewrite !decide_False. Qed.

(** The four ways a POST ends. *)
Lemma post_cases reviews env amb :
  REQUEST_METHOD env = "POST" →
  (∃ text review_body location,
     wsgi_input env = Ok text ∧
     truthy (param text "ReviewBody") = Some review_body ∧
     truthy (param text "Location") = Some location ∧
     location ∈ ALLOWED_LOCATIONS ∧
     call polarity_scores reviews env amb =
       (reviews ++ [mk_review (Some (uuid4 amb)) review_body location
                      (strftime (now amb)) None],
        Response "201 Created"
          (JReview (mk_review (Some (uuid4 amb)) review_body location
                      (strftime (now amb)) None)))) ∨
  (∃ text msg,
     wsgi_input env = Ok text ∧
     call polarity_scores reviews env amb =
       (reviews, Response "400 Bad Request" (JError msg))) ∨
  (∃ e,
     wsgi_input env = Raise e ∧
     call polarity_scores reviews env amb =
       (reviews, Response "500 Internal Server Error"
                   (JError (str_exception e)))).
Proof.
  intros Hpost. rewrite call_post by done. unfold handle_post.
  destruct (wsgi_input env) as [text|e] eqn:Hin.
  - rewrite (try_post_unfold _ _ _ _ Hin).
    destruct (truthy (param text "ReviewBody")) as [b|] eqn:Hb;
      [|right; left; eauto].
    destruct (truthy (param text "Location")) as [l|] eqn:Hl;
      [|right; left; eauto].
    case_decide; [|right; left; eauto].
    left. exists text, b, l. eauto 10.
  - right. right. exists e. split; [done|].
    unfold try_post. by rewrite Hin.
Qed.

(** X8. A POST is always answered, and no exception leaves the handler:
    500 with the text of the exception when the request body could not be
    read, and only then; 201 or 400 otherwise.  Only a 201 changes the
    collection. *)
Theorem post_answers reviews env amb :
  REQUEST_METHOD env = "POST" →
  (∀ e, wsgi_input env = Raise e →
        call polarity_scores reviews env amb =
          (reviews, Response "500 Internal Server Error"
                      (JError (str_exception e)))) ∧
  (∀ text, wsgi_input env = Ok text →
        ∃ body,
          (call polarity_scores reviews env amb).2 =
            Response "201 Created" body ∨
          (call polarity_scores reviews env amb).2 =
            Response "400 Bad Request" body) ∧
  (accepted (call polarity_scores reviews env amb).2 = None →
   (call polarity_scores reviews env amb).1 = reviews).
Proof.
  intros Hpost.
  destruct (post_cases reviews env amb Hpost)
    as [(text & b & l & Hin & _ & _ & _ & ->)|
        [(text & msg & Hin & ->)|(e & Hin & ->)]];
    rewrite Hin; (split; [|split]); try done.
  - intros ? _. eexists. by left.
  - intros ? _. eexists. by right.
  - by intros ? [= <-].
Qed.

(** *** The records of the collection along a run *)

Lemma same_but_without sia r r' :
  same_but_sentiment sia r r' → without_sentiment r' = without_sentiment r.
Proof. by intros [->| ->]. Qed.

Lemma fmap_without_same sia (l l' : list Review) :
  Forall2 (same_but_sentiment sia) l l' →
  without_sentiment <$> l' = without_sentiment <$> l.
Proof.
  induction 1 as [|r r' l l' Hr _ IH]; [done|].
  by rewrite !fmap_cons, IH, (same_but_without _ _ _ Hr).
Qed.

(** A GET neither adds a record nor removes one, and accepts none. *)
Lemma handle_get_records reviews env :
  without_sentiment <$> (handle_get polarity_scores reviews env).1 ≡ₚ
    without_sentiment <$> reviews ∧
  appended (handle_get polarity_scores reviews env).2 = [].
Proof.
  unfold handle_get.
  destruct (select reviews (QUERY_STRING env)) as [[filtered|]|e] eqn:Hsel;
    [|done..].
  pose proof (select_valid _ _ _ Hsel) as Hvalid.
  rewrite rank_200 by done. split; [|done].
  destruct (ranked_body polarity_scores reviews (refs filtered) Hvalid)
    as (_ & Hperm & _).
  destruct (aliased filtered) eqn:Hal; cbn [fst].
  - destruct (select_aliased _ _ _ Hsel Hal) as (_ & _ & _ & ->).
    unfold all_reviews in *. cbn [refs] in *.
    rewrite Hperm.
    pose proof (fmap_lookup_total_seq
                  (annotate polarity_scores reviews (seq 0 (length reviews))))
      as Hall.
    rewrite length_annotate in Hall. rewrite Hall.
    by rewrite (fmap_without_same _ _ _ (annotate_same _ _ _)).
  - by rewrite (fmap_without_same _ _ _ (annotate_same _ _ _)).
Qed.

(** One request: the collection after it holds the records it held before
    and the record of a 201, if the answer is one. *)
Lemma call_records reviews env amb :
  without_sentiment <$> (call polarity_scores reviews env amb).1 ≡ₚ
  without_sentiment <$>
    (reviews ++ appended (call polarity_scores reviews env amb).2).
Proof.
  destruct (decide (REQUEST_METHOD env = "GET")) as [Hget|Hget].
  - rewrite call_get by done.
    destruct (handle_get_records reviews env) as [-> ->].
    by rewrite app_nil_r.
  - destruct (decide (REQUEST_METHOD env = "POST")) as [Hpost|Hpost].
    + destruct (post_cases reviews env amb Hpost)
        as [(text & b & l & _ & _ & _ & _ & ->)|
            [(text & msg & _ & ->)|(e & _ & ->)]]; simpl;
        by rewrite ?app_nil_r.
    + rewrite call_other by done. simpl. by rewrite app_nil_r.
Qed.

(** The record of a 201 has a location of the allow-list and, when the
    clock gave a date-time, a timestamp that reads back. *)
Lemma call_appended_well_formed reviews env amb :
  valid_datetime (now amb) = true →
  Forall well_formed (appended (call polarity_scores reviews env amb).2).
Proof.
  intros Hnow.
  destruct (decide (REQUEST_METHOD env = "GET")) as [Hget|Hget].
  - rewrite call_get by done.
    by destruct (handle_get_records reviews env) as [_ ->].
  - destruct (decide (REQUEST_METHOD env = "POST")) as [Hpost|Hpost].
    + destruct (post_cases reviews env amb Hpost)
        as [(text & b & l & _ & _ & _ & Hal & ->)|
            [(text & msg & _ & ->)|(e & _ & ->)]]; simpl; try done.
      apply Forall_singleton. split; [done|]. eexists. simpl.
      by apply strptime_strftime.
    + by rewrite call_other by done.
Qed.

Lemma well_formed_without r :
  well_formed (without_sentiment r) ↔ well_formed r.
Proof. done. Qed.

Lemma Forall_well_formed_without (l : list Review) :
  Forall well_formed (without_sentiment <$> l) ↔ Forall well_formed l.
Proof. rewrite Forall_fmap. apply Forall_proper; [|done]. by intros r. Qed.

Lemma serve_cons reviews env amb requests :
  serve polarity_scores reviews ((env, amb) :: requests) =
  ((serve polarity_scores (call polarity_scores reviews env amb).1
      requests).1,
   (call polarity_scores reviews env amb).2 ::
   (serve polarity_scores (call polarity_scores reviews env amb).1
      requests).2).
Proof.
  simpl. destruct (call polarity_scores reviews env amb) as [reviews1 out].
  simpl. by destruct (serve polarity_scores reviews1 requests).
Qed.

Lemma omap_accepted_cons out outs :
  omap accepted (out :: outs) = appended out ++ omap accepted outs.
Proof. unfold appended. simpl. by destruct (accepted out). Qed.

(** X9. Along any run of requests, of any methods, the collection never
    loses a record and never gains one but by a 201: apart from the
    [sentiment] field, the records it holds at the end are those it held at
    the start and those returned with a 201, with no record updated. *)
Theorem serve_preserves_records reviews (requests : list (environ * ambient)) :
  without_sentiment <$> (serve polarity_scores reviews requests).1 ≡ₚ
  without_sentiment <$>
    (reviews ++ omap accepted (serve polarity_scores reviews requests).2).
Proof.
  revert reviews. induction requests as [|[env amb] requests IH];
    intros reviews.
  - simpl. by rewrite app_nil_r.
  - rewrite serve_cons. cbn [fst snd]. rewrite IH, omap_accepted_cons.
    rewrite !fmap_app, call_records, fmap_app. by rewrite <- !app_assoc.
Qed.

Lemma serve_well_formed reviews (requests : list (environ * ambient)) :
  Forall well_formed reviews →
  Forall (fun req => valid_datetime (now req.2) = true) requests →
  Forall well_formed (serve polarity_scores reviews requests).1.
Proof.
  intros Hwf Hreq. revert reviews Hwf.
  induction Hreq as [|[env amb] requests Hnow _ IH]; intros reviews Hwf;
    [done|].
  rewrite serve_cons. cbn [fst]. apply IH.
  apply Forall_well_formed_without. rewrite call_records.
  apply Forall_well_formed_without, Forall_app. split; [done|].
  by apply call_appended_well_formed.
Qed.

(** X10. The write-path invariant survives reads: if every record of the
    collection has a location of the allow-list and a timestamp that reads
    under ['%Y-%m-%d %H:%M:%S'], so has every record after any run of
    requests, GETs included. *)
Theorem serve_keeps_well_formed reviews (requests : list (environ * ambient)) :
  Forall well_formed reviews →
  Forall (fun req => valid_datetime (now req.2) = true) requests →
  Forall well_formed (serve polarity_scores reviews requests).1.
Proof. apply serve_well_formed. Qed.

(** X11. On a collection that starts well formed, no run of requests can
    make a later GET fail: a GET with a location of the allow-list (or
    none) and dates that are dates (or none) is answered 200, with the
    records then stored at that location and within the bounds. *)
Theorem get_after_run reviews (requests : list (environ * ambient)) env amb
    sd ed :
  Forall well_formed reviews →
  Forall (fun req => valid_datetime (now req.2) = true) requests →
  REQUEST_METHOD env = "GET" →
  location_ok (QUERY_STRING env) →
  bound (param (QUERY_STRING env) "start_date") = Ok sd →
  bound (param (QUERY_STRING env) "end_date") = Ok ed →
  ∃ reviews' body,
    call polarity_scores (serve polarity_scores reviews requests).1 env amb =
      (reviews', Response "200 OK" (JReviews body)) ∧
    body ≡ₚ
      score <$> filter (selected (param (QUERY_STRING env) "location") sd ed)
                  (serve polarity_scores reviews requests).1.
Proof.
  intros Hwf Hreq Hget Hloc Hsd Hed. rewrite call_get by done.
  apply get_succeeds; try done. right.
  eapply Forall_impl; [by apply serve_well_formed|]. by intros r [_ ?].
Qed.

(** X12. The round trip of a review: once a POST has been answered 201, a
    GET on the location it gave, with no date, returns the record of the
    201 with the score of its text. *)
Theorem post_then_get_returns reviews env amb env2 amb2 text review_body
    location :
  REQUEST_METHOD env = "POST" →
  wsgi_input env = Ok text →
  truthy (param text "ReviewBody") = Some review_body →
  truthy (param text "Location") = Some location →
  location ∈ ALLOWED_LOCATIONS →
  REQUEST_METHOD env2 = "GET" →
  truthy (param (QUERY_STRING env2) "location") = Some location →
  truthy (param (QUERY_STRING env2) "start_date") = None →
  truthy (param (QUERY_STRING env2) "end_date") = None →
  let new_review :=
    mk_review (Some (uuid4 amb)) review_body location (strftime (now amb)) None in
  (call polarity_scores reviews env amb).2 =
    Response "201 Created" (JReview new_review) ∧
  ∃ body,
    (call polarity_scores (call polarity_scores reviews env amb).1 env2 amb2).2 =
      Response "200 OK" (JReviews body) ∧
    score new_review ∈ body.
Proof.
  intros Hpost Hin Hb Hl Hal Hget Hloc Hs He new_review.
  assert (call polarity_scores reviews env amb =
          (reviews ++ [new_review],
           Response "201 Created" (JReview new_review))) as ->.
  { rewrite call_post by done. unfold handle_post.
    rewrite (try_post_unfold _ _ _ _ Hin), Hb, Hl. by rewrite decide_True. }
  split; [done|]. cbn [fst]. rewrite call_get by done.
  destruct (get_succeeds polarity_scores (reviews ++ [new_review]) env2
              None None) as (reviews' & body & -> & Hbody).
  - unfold location_ok. rewrite Hloc. by intros ? [= <-].
  - by apply bound_truthy_None.
  - by apply bound_truthy_None.
  - by left.
  - exists body. split; [done|]. rewrite Hbody.
    apply list_elem_of_fmap_2, list_elem_of_filter. split.
    + split; [|done]. unfold at_location. by rewrite Hloc.
    + apply elem_of_app. right. by left.
Qed.

End runs.

(** * The further properties at work on sample requests *)

Lemma get_200_exact_witness :
  REQUEST_METHOD (Sample.get "end_date=2021-01-06") = "GET" ∧
  call Sample.scores Sample.store (Sample.get "end_date=2021-01-06")
    Sample.clock =
    ([Sample.with_score Sample.terrible; Sample.with_score Sample.great;
      Sample.plain; Sample.late],
     Response "200 OK"
       (JReviews [Sample.with_score Sample.great;
                  Sample.with_score Sample.terrible])) ∧
  ∃ sd ed,
    bound (param "end_date=2021-01-06" "start_date") = Ok sd ∧
    bound (param "end_date=2021-01-06" "end_date") = Ok ed ∧
    location_ok "end_date=2021-01-06" ∧
    [Sample.with_score Sample.great; Sample.with_score Sample.terrible] ≡ₚ
      set_sentiment Sample.scores <$>
        filter (selected (param "end_date=2021-01-06" "location") sd ed)
          Sample.store.
Proof.
  assert (call Sample.scores Sample.store (Sample.get "end_date=2021-01-06")
            Sample.clock =
          ([Sample.with_score Sample.terrible; Sample.with_score Sample.great;
            Sample.plain; Sample.late],
           Response "200 OK"
             (JReviews [Sample.with_score Sample.great;
                        Sample.with_score Sample.terrible]))) as H
    by (vm_compute; reflexivity).
  split; [reflexivity|]. split; [exact H|].
  exact (get_200_exact Sample.scores Sample.store
           (Sample.get "end_date=2021-01-06") Sample.clock _ _ eq_refl H).
Defined.

Lemma get_answers_matching_witness :
  REQUEST_METHOD
    (Sample.get "location=Denver%2C+Colorado&start_date=2021-01-06") = "GET" ∧
  location_ok "location=Denver%2C+Colorado&start_date=2021-01-06" ∧
  bound (param "location=Denver%2C+Colorado&start_date=2021-01-06" "start_date")
    = Ok (Some (mk_datetime 2021 1 6 0 0 0)) ∧
  bound (param "location=Denver%2C+Colorado&start_date=2021-01-06" "end_date")
    = Ok None ∧
  Forall parses Sample.store ∧
  ∃ reviews' body,
    call Sample.scores Sample.store
      (Sample.get "location=Denver%2C+Colorado&start_date=2021-01-06")
      Sample.clock = (reviews', Response "200 OK" (JReviews body)) ∧
    body ≡ₚ
      set_sentiment Sample.scores <$>
        filter (selected
                  (param "location=Denver%2C+Colorado&start_date=2021-01-06"
                     "location")
                  (Some (mk_datetime 2021 1 6 0 0 0)) None)
          Sample.store.
Proof.
  assert (location_ok "location=Denver%2C+Colorado&start_date=2021-01-06")
    as Hloc.
  { intros l Hl. vm_compute in Hl. injection Hl as <-.
    apply (bool_decide_unpack _). vm_compute. exact I. }
  assert (Forall parses Sample.store) as Hp.
  { repeat constructor; eexists; reflexivity. }
  split; [reflexivity|]. split; [exact Hloc|]. split; [reflexivity|].
  split; [reflexivity|]. split; [exact Hp|].
  exact (get_answers_matching Sample.scores Sample.store
           (Sample.get "location=Denver%2C+Colorado&start_date=2021-01-06")
           Sample.clock _ _ eq_refl Hloc eq_refl eq_refl Hp).
Defined.

Lemma get_without_dates_witness :
  REQUEST_METHOD (Sample.get "location=Tucson%2C+Arizona") = "GET" ∧
  location_ok "location=Tucson%2C+Arizona" ∧
  truthy (param "location=Tucson%2C+Arizona" "start_date") = None ∧
  truthy (param "location=Tucson%2C+Arizona" "end_date") = None ∧
  strptime_timestamp (Timestamp Sample.undated) = Raise ValueError ∧
  ∃ reviews' body,
    call Sample.scores Sample.messy (Sample.get "location=Tucson%2C+Arizona")
      Sample.clock = (reviews', Response "200 OK" (JReviews body)) ∧
    body ≡ₚ
      set_sentiment Sample.scores <$>
        filter (at_location (param "location=Tucson%2C+Arizona" "location"))
          Sample.messy.
Proof.
  assert (location_ok "location=Tucson%2C+Arizona") as Hloc.
  { intros l Hl. vm_compute in Hl. injection Hl as <-.
    apply (bool_decide_unpack _). vm_compute. exact I. }
  split; [reflexivity|]. split; [exact Hloc|]. split; [reflexivity|].
  split; [reflexivity|]. split; [reflexivity|].
  exact (get_without_dates Sample.scores Sample.messy
           (Sample.get "location=Tucson%2C+Arizona") Sample.clock
           eq_refl Hloc eq_refl eq_refl).
Defined.


Lemma get_filtered_touches_witness :
  REQUEST_METHOD (Sample.get "location=Tucson%2C+Arizona") = "GET" ∧
  call Sample.scores Sample.store (Sample.get "location=Tucson%2C+Arizona")
    Sample.clock =
    ([Sample.terrible; Sample.great; Sample.with_score Sample.plain;
      Sample.late],
     Response "200 OK" (JReviews [Sample.with_score Sample.plain])) ∧
  truthy (param "location=Tucson%2C+Arizona" "location")
    = Some "Tucson, Arizona" ∧
  ∃ sd ed,
    bound (param "location=Tucson%2C+Arizona" "start_date") = Ok sd ∧
    bound (param "location=Tucson%2C+Arizona" "end_date") = Ok ed ∧
    Forall2 (fun r r' =>
               r' = if decide (selected
                                 (param "location=Tucson%2C+Arizona" "location")
                                 sd ed r)
                    then set_sentiment Sample.scores r else r)
      Sample.store
      [Sample.terrible; Sample.great; Sample.with_score Sample.plain;
       Sample.late].
Proof.
  assert (call Sample.scores Sample.store
            (Sample.get "location=Tucson%2C+Arizona") Sample.clock =
          ([Sample.terrible; Sample.great; Sample.with_score Sample.plain;
            Sample.late],
           Response "200 OK" (JReviews [Sample.with_score Sample.plain])))
    as H by (vm_compute; reflexivity).
  assert (truthy (param "location=Tucson%2C+Arizona" "location")
          = Some "Tucson, Arizona") as Hl by (vm_compute; reflexivity).
  split; [reflexivity|]. split; [exact H|]. split; [exact Hl|].
  apply (get_filtered_touches Sample.scores Sample.store
           (Sample.get "location=Tucson%2C+Arizona") Sample.clock _ _
           eq_refl H).
  exists "Tucson, Arizona". left. exact Hl.
Defined.

Lemma get_unfiltered_reorders_witness :
  REQUEST_METHOD (Sample.get "") = "GET" ∧
  truthy (param "" "location") = None ∧
  truthy (param "" "start_date") = None ∧
  truthy (param "" "end_date") = None ∧
  ∃ body,
    call Sample.scores Sample.store (Sample.get "") Sample.clock =
      (body, Response "200 OK" (JReviews body)) ∧
    body ≡ₚ set_sentiment Sample.scores <$> Sample.store.
Proof.
  split; [reflexivity|]. split; [reflexivity|]. split; [reflexivity|].
  split; [reflexivity|].
  exact (get_unfiltered_reorders Sample.scores Sample.store (Sample.get "")
           Sample.clock eq_refl eq_refl eq_refl eq_refl).
Defined.

Lemma get_ignores_stored_sentiment_witness :
  REQUEST_METHOD (Sample.get "location=Denver%2C+Colorado") = "GET" ∧
  Forall2 (fun r r2 => without_sentiment r = without_sentiment r2)
    Sample.store (Sample.with_score <$> Sample.store) ∧
  (call Sample.scores (Sample.with_score <$> Sample.store)
     (Sample.get "location=Denver%2C+Colorado") Sample.clock).2 =
  (call Sample.scores Sample.store
     (Sample.get "location=Denver%2C+Colorado") Sample.clock).2.
Proof.
  assert (Forall2 (fun r r2 => without_sentiment r = without_sentiment r2)
            Sample.store (Sample.with_score <$> Sample.store)) as H.
  { repeat constructor. }
  split; [reflexivity|]. split; [exact H|].
  exact (get_ignores_stored_sentiment Sample.scores Sample.store
           (Sample.with_score <$> Sample.store)
           (Sample.get "location=Denver%2C+Colorado") Sample.clock eq_refl H).
Defined.

Lemma post_answers_witness :
  REQUEST_METHOD (mk_environ "POST" "" (Raise (InputError "invalid start byte")))
    = "POST" ∧
  call Sample.scores Sample.store
    (mk_environ "POST" "" (Raise (InputError "invalid start byte")))
    Sample.clock =
    (Sample.store,
     Response "500 Internal Server Error" (JError "invalid start byte")).
Proof.
  split; [reflexivity|].
  exact (proj1 (post_answers Sample.scores Sample.store
                  (mk_environ "POST" "" (Raise (InputError "invalid start byte")))
                  Sample.clock eq_refl)
           (InputError "invalid start byte") eq_refl).
Defined.

Lemma serve_keeps_well_formed_witness :
  Forall well_formed Sample.store ∧
  Forall (fun req => valid_datetime (now req.2) = true) Sample.traffic ∧
  Forall well_formed (serve Sample.scores Sample.store Sample.traffic).1 ∧
  length (serve Sample.scores Sample.store Sample.traffic).1 = 5%nat.
Proof.
  assert (Forall well_formed Sample.store) as Hwf.
  { repeat (apply List.Forall_cons || apply List.Forall_nil);
      (split; [apply (bool_decide_unpack _); vm_compute; exact I
              |eexists; reflexivity]). }
  assert (Forall (fun req => valid_datetime (now req.2) = true)
            Sample.traffic) as Hreq.
  { repeat (apply List.Forall_cons || apply List.Forall_nil); reflexivity. }
  split; [exact Hwf|]. split; [exact Hreq|].
  split; [|vm_compute; reflexivity].
  exact (serve_keeps_well_formed Sample.scores Sample.store Sample.traffic
           Hwf Hreq).
Defined.

Lemma get_after_run_witness :
  Forall well_formed Sample.store ∧
  Forall (fun req => valid_datetime (now req.2) = true) Sample.traffic ∧
  REQUEST_METHOD (Sample.get "start_date=2024-02-29") = "GET" ∧
  location_ok "start_date=2024-02-29" ∧
  bound (param "start_date=2024-02-29" "start_date")
    = Ok (Some (mk_datetime 2024 2 29 0 0 0)) ∧
  bound (param "start_date=2024-02-29" "end_date") = Ok None ∧
  ∃ reviews' body,
    call Sample.scores (serve Sample.scores Sample.store Sample.traffic).1
      (Sample.get "start_date=2024-02-29") Sample.clock =
      (reviews', Response "200 OK" (JReviews body)) ∧
    body ≡ₚ
      set_sentiment Sample.scores <$>
        filter (selected (param "start_date=2024-02-29" "location")
                  (Some (mk_datetime 2024 2 29 0 0 0)) None)
          (serve Sample.scores Sample.store Sample.traffic).1.
Proof.
  assert (Forall well_formed Sample.store) as Hwf.
  { repeat (apply List.Forall_cons || apply List.Forall_nil);
      (split; [apply (bool_decide_unpack _); vm_compute; exact I
              |eexists; reflexivity]). }
  assert (Forall (fun req => valid_datetime (now req.2) = true)
            Sample.traffic) as Hreq.
  { repeat (apply List.Forall_cons || apply List.Forall_nil); reflexivity. }
  assert (location_ok "start_date=2024-02-29") as Hloc.
  { intros l Hl. vm_compute in Hl. discriminate Hl. }
  split; [exact Hwf|]. split; [exact Hreq|]. split; [reflexivity|].
  split; [exact Hloc|]. split; [reflexivity|]. split; [reflexivity|].
  exact (get_after_run Sample.scores Sample.store Sample.traffic
           (Sample.get "start_date=2024-02-29") Sample.clock _ _
           Hwf Hreq eq_refl Hloc eq_refl eq_refl).
Defined.

Lemma post_then_get_returns_witness :
  REQUEST_METHOD (Sample.post "ReviewBody=Great stay&Location=Denver, Colorado")
    = "POST" ∧
  truthy (param "ReviewBody=Great stay&Location=Denver, Colorado" "ReviewBody")
    = Some "Great stay" ∧
  truthy (param "ReviewBody=Great stay&Location=Denver, Colorado" "Location")
    = Some "Denver, Colorado" ∧
  "Denver, Colorado" ∈ ALLOWED_LOCATIONS ∧
  REQUEST_METHOD (Sample.get "location=Denver%2C+Colorado") = "GET" ∧
  truthy (param "location=Denver%2C+Colorado" "location")
    = Some "Denver, Colorado" ∧
  ∃ body,
    (call Sample.scores
       (call Sample.scores Sample.store
          (Sample.post "ReviewBody=Great stay&Location=Denver, Colorado")
          Sample.clock).1
       (Sample.get "location=Denver%2C+Colorado") Sample.clock).2 =
      Response "200 OK" (JReviews body) ∧
    Sample.with_score Sample.posted ∈ body.
Proof.
  assert ("Denver, Colorado" ∈ ALLOWED_LOCATIONS) as Hal.
  { apply (bool_decide_unpack _). vm_compute. exact I. }
  assert (truthy (param "ReviewBody=Great stay&Location=Denver, Colorado"
                    "ReviewBody") = Some "Great stay") as Hb
    by (vm_compute; reflexivity).
  assert (truthy (param "ReviewBody=Great stay&Location=Denver, Colorado"
                    "Location") = Some "Denver, Colorado") as Hl
    by (vm_compute; reflexivity).
  assert (truthy (param "location=Denver%2C+Colorado" "location")
          = Some "Denver, Colorado") as Hq by (vm_compute; reflexivity).
  split; [reflexivity|]. split; [exact Hb|]. split; [exact Hl|].
  split; [exact Hal|]. split; [reflexivity|]. split; [exact Hq|].
  exact (proj2 (post_then_get_returns Sample.scores Sample.store
                  (Sample.post "ReviewBody=Great stay&Location=Denver, Colorado")
                  Sample.clock (Sample.get "location=Denver%2C+Colorado")
                  Sample.clock _ "Great stay" "Denver, Colorado"
                  eq_refl eq_refl Hb Hl Hal eq_refl Hq eq_refl eq_refl)).
Defined.
